(** * Cloud Functions REST client: a shallow embedding

    The development follows the two modules of the client layer:
    the functions module (makePath, makeFirebaseError, generateUploadUrl,
    createFunction, patchFunction, deleteFunction, listFunctions) and the
    operations module (getOperation).

    Conventions.
    - A JavaScript string is a [string]; its characters stand for the code
      units of the source string.  Indices are [Z], as [lastIndexOf] can
      answer [-1].
    - An optional property is an [option]: [None] is a property that is
      missing, [undefined] or [null].
    - A function that talks to the outside returns a trace of the events it
      caused (requests issued, lines logged) together with the state in
      which its promise settles. *)

From Stdlib Require Import String Ascii List ZArith Bool Lia.
Import ListNotations.

Set Warnings "-register-all".

Local Open Scope string_scope.
Local Open Scope Z_scope.

(** ** JavaScript string and truthiness primitives *)

Module Js.

(** [s.lastIndexOf(pat)]: the greatest index at which [pat] occurs in
    [s], or [-1].  [scan] walks [s] from index [i] and remembers in
    [acc] the last index at which [pat] was seen. *)
Fixpoint scan (pat s : string) (i acc : Z) : Z :=
  let acc' := if String.prefix pat s then i else acc in
  match s with
  | EmptyString => acc'
  | String _ s' => scan pat s' (i + 1) acc'
  end.

Definition lastIndexOf (s pat : string) : Z := scan pat s 0 (-1).

Fixpoint drop (n : nat) (s : string) : string :=
  match n, s with
  | O, _ => s
  | S _, EmptyString => EmptyString
  | S n', String _ s' => drop n' s'
  end.

(** [s.substring(start)]: a negative [start] counts as [0], one beyond
    the end as the length. *)
Definition substring (s : string) (start : Z) : string :=
  drop (Z.to_nat (Z.max 0 start)) s.

(** [xs.join(sep)] *)
Fixpoint join (sep : string) (xs : list string) : string :=
  match xs with
  | [] => ""
  | [x] => x
  | x :: rest => x ++ sep ++ join sep rest
  end.

(** Truthiness of a string and of a number, absent values being falsy. *)
Definition truthy_string (v : option string) : bool :=
  match v with
  | None => false
  | Some s => negb (s =? "")%string
  end.

Definition truthy_number (v : option Z) : bool :=
  match v with
  | None => false
  | Some n => negb (n =? 0)
  end.

(** A JavaScript value as far as the payloads of this layer go. *)
Inductive value : Type :=
| VString (s : string)
| VNumber (n : Z)
| VBool (b : bool)
| VObject (props : list (string * value)).

(** An object: its own enumerable properties, listed in the order in
    which they are enumerated (the keys that are array indices first, in
    ascending order, then the other keys in insertion order).  The keys of
    an object are pairwise different; where a property needs that, it
    says so. *)
Definition object : Type := list (string * value).

(** [_.keys(o)]: the keys in enumeration order. *)
Definition keys (o : object) : list string := List.map fst o.

(** The character [c] occurs in [s]. *)
Fixpoint occurs (c : ascii) (s : string) : bool :=
  match s with
  | EmptyString => false
  | String d s' => Ascii.eqb c d || occurs c s'
  end.

End Js.

(** ** The functions module *)

Definition API_VERSION : string := "v1".

Definition ERR_DEPLOYMENT_QUOTA_EXCEEDED_MESSAGE : string :=
  "You have exceeded your deployment quota, please deploy your functions in " ++
  "batches by using the --only flag, and wait a few minutes before deploying " ++
  "again. Go to https://firebase.google.com/docs/cli/#partial_deploys to " ++
  "learn more.".

Definition LF : string := String (ascii_of_nat 10) EmptyString.

Definition ERR_GENERATE_UPLOAD_URL_FAILURE_MESSAGE : string :=
  LF ++ LF ++ "There was an issue deploying your functions. Verify that your project " ++
  "has a Google App Engine instance setup at " ++
  "https://console.cloud.google.com/appengine and try again. If this issue " ++
  "persists, please contact support.".

Definition DEFAULT_REGION : string := "us-central1".

Record Target : Type := mkTarget {
  functionName : string;
  locationName : string;
  projectId : string
}.

Inductive OperationType : Type := Create | Delete | Update.

Definition OperationType_value (t : OperationType) : string :=
  match t with
  | Create => "create"
  | Delete => "delete"
  | Update => "update"
  end.

(** [makePath]: the function name is optional in the argument; the test
    [typeof functionName === "string"] is the test for [Some]. *)
Definition makePath (projectId locationName : string)
    (functionName : option string) : string :=
  let projectPath := "/" ++ API_VERSION ++ "/projects/" ++ projectId in
  let locationPath := projectPath ++ "/locations/" ++ locationName in
  let functionsPath := locationPath ++ "/functions" in
  match functionName with
  | Some f => functionsPath ++ "/" ++ f
  | None => functionsPath
  end.

(** The collection path of a project and location, as the REST interface
    writes it. *)
Definition collection_path (p l : string) : string :=
  "/v1/projects/" ++ p ++ "/locations/" ++ l ++ "/functions".

(** ** Errors, promises and the outside world *)

(** The response a transport error carries in its context. *)
Record ErrorResponse : Type := mkErrorResponse {
  statusCode : option Z
}.

(** The context of an error: the transport fills [response], the wrapper
    of this module fills [function]. *)
Record ErrorContext : Type := mkErrorContext {
  response : option ErrorResponse;
  function : option string
}.

(** [new FirebaseError(message, { original, context })] *)
Inductive FirebaseError : Type :=
| FirebaseError_new (message : string) (original : option FirebaseError)
    (context : option ErrorContext).

Definition message (e : FirebaseError) : string :=
  match e with FirebaseError_new m _ _ => m end.

Definition original (e : FirebaseError) : option FirebaseError :=
  match e with FirebaseError_new _ o _ => o end.

Definition context (e : FirebaseError) : option ErrorContext :=
  match e with FirebaseError_new _ _ c => c end.

(** [_.get(error, ["context", "response", "statusCode"])] *)
Definition get_statusCode (error : FirebaseError) : option Z :=
  match context error with
  | Some c =>
      match response c with
      | Some r => statusCode r
      | None => None
      end
  | None => None
  end.

(** [x === 429] on the result of the lookup. *)
Definition is_429 (x : option Z) : bool :=
  match x with
  | Some n => n =? 429
  | None => false
  end.

(** The state in which a promise settles. *)
Inductive Settled (R A : Type) : Type :=
| Fulfilled (a : A)
| Rejected (r : R).
Arguments Fulfilled {R A} a.
Arguments Rejected {R A} r.

(** What a promise of this layer is rejected with: an error object, a bare
    message (listFunctions), or a promise object that was thrown as it
    is.  A rejection reason is handed on untouched: a promise given as the
    reason is not waited for. *)
Inductive Reason : Type :=
| ReasonError (e : FirebaseError)
| ReasonMessage (s : string)
| ReasonPromise (p : Settled Reason FirebaseError).

Inductive Level : Type := Debug | Info | Warning.

Inductive Method : Type := GET | POST | PATCH | DELETE.

Inductive CloudFunctionStatus : Type :=
| CLOUD_FUNCTION_STATUS_UNSPECIFIED
| ACTIVE
| OFFLINE
| DEPLOY_IN_PROGRESS
| DELETE_IN_PROGRESS
| UNKNOWN.

Record SourceRepository : Type := mkSourceRepository {
  url : string;
  deployedUrl : string
}.

Inductive CloudFunctionSourceCode : Type :=
| sourceArchiveUrl (u : string)
| sourceRepository (r : SourceRepository)
| sourceUploadUrl (u : string).

(** The EventTrigger interface: four required fields, the failure policy
    being [{ retry: {} }]. *)
Module EventTrigger.
Record t : Type := mk {
  eventType : string;
  resource : string;
  service : string;
  failurePolicy_retry : Js.object
}.

(** An event trigger as an object, its fields in the order of the
    interface. *)
Definition to_object (e : t) : Js.object :=
  [("eventType", Js.VString (eventType e));
   ("resource", Js.VString (resource e));
   ("service", Js.VString (service e));
   ("failurePolicy", Js.VObject [("retry", Js.VObject (failurePolicy_retry e))])].
End EventTrigger.

(** [Trigger = HttpsTrigger & EventTrigger]: the fields of both. *)
Module Trigger.
Record t : Type := mk {
  url : string;
  eventType : string;
  resource : string;
  service : string;
  failurePolicy_retry : Js.object
}.
End Trigger.

(** [CloudFunction = CloudFunctionBase & CloudFunctionSourceCode & Trigger] *)
Module CloudFunction.
Record t : Type := mk {
  name : string;
  description : string;
  status : CloudFunctionStatus;
  entryPoint : string;
  runtime : string;
  timeout : string;
  availableMemoryMb : Z;
  serviceAccountEmail : string;
  updateTime : string;
  versionId : string;
  labels : list (string * string);
  environmentVariables : list (string * string);
  network : string;
  maxInstances : Z;
  vpcConnector : string;
  sourceCode : CloudFunctionSourceCode;
  trigger : Trigger.t
}.
End CloudFunction.

(** A function as the list call returns it: its fully-qualified [name],
    the [functionName] the client attaches, and its other properties.
    [name] is a string, as CloudFunctionBase declares it: a listed
    function without a name is outside this model. *)
Module Listed.
Record t : Type := mk {
  name : string;
  functionName : option string;
  others : Js.object
}.
End Listed.

(** The body of a response, with the properties this layer reads. *)
Module Body.
Record t : Type := mk {
  name : option string;
  uploadUrl : option string;
  functions : option (list Listed.t);
  others : Js.object
}.
End Body.

(** What the transport answers with: a response that has a body, as the
    operations take it to be.  An answer without a body is outside this
    model. *)
Record Response : Type := mkResponse {
  body : Body.t
}.

(** [options.trigger] of a patch: which of the two trigger properties the
    caller supplied.  A trigger object with further properties of its own
    is outside this model. *)
Module TriggerOption.
Record t : Type := mk {
  eventTrigger : option Js.object;
  httpsTrigger : option Js.object
}.
End TriggerOption.

(** The [options] object the body of [patchFunction] reads. *)
Module PatchOptions.
Record t : Type := mk {
  sourceUploadUrl : option string;
  labels : list (string * string);
  trigger : TriggerOption.t;
  runtime : option string;
  availableMemoryMb : option Z;
  timeout : option string;
  functionName : string
}.
End PatchOptions.

(** The [data] object of a patch request. *)
Module PatchData.
Record t : Type := mk {
  sourceUploadUrl : option string;
  name : string;
  labels : list (string * string);
  eventTrigger : option Js.object;
  httpsTrigger : option Js.object;
  runtime : option string;
  availableMemoryMb : option Z;
  timeout : option string
}.
End PatchData.

(** The [options] object of [deleteFunction]. *)
Module DeleteOptions.
Record t : Type := mk {
  projectId : string;
  region : string;
  functionName : string
}.
End DeleteOptions.

Inductive Payload : Type :=
| PayloadFunction (f : CloudFunction.t)
| PayloadPatch (d : PatchData.t).

(** The call [api.request(method, path, options)]. *)
Module Request.
Record t : Type := mk {
  method : Method;
  path : string;
  auth : bool;
  json : option bool;
  origin : string;
  retryCodes : list Z;
  qs : list (string * string);
  data : option Payload
}.
End Request.

(** How the transport answers a request. *)
Inductive Reply : Type :=
| Responded (resp : Response)
| Failed (error : FirebaseError).

Inductive Event : Type :=
| Requested (r : Request.t)
| Logged (lvl : Level) (line : string).

(** The record the patch and delete calls answer with. *)
Module OperationRecord.
Record t : Type := mk {
  func : string;
  done : bool;
  name : option string;
  type : string
}.
End OperationRecord.

(** The target of [getOperation]. *)
Module OperationTarget.
Record t : Type := mk {
  name : string
}.
End OperationTarget.

(** ** Effects: a computation yields the events it caused and a result *)

Definition Eff (A : Type) : Type := (list Event * A)%type.

Definition ret {A : Type} (a : A) : Eff A := ([], a).

Definition bind {A B : Type} (m : Eff A) (k : A -> Eff B) : Eff B :=
  let (t1, a) := m in
  let (t2, b) := k a in
  ((t1 ++ t2)%list, b).

Definition emit (e : Event) : Eff unit := ([e], tt).

Notation "x <- m ;; k" := (bind m (fun x => k))
  (at level 61, m at next level, right associativity).
Notation "m ;;; k" := (bind m (fun _ => k))
  (at level 61, right associativity).

Definition events {A : Type} (m : Eff A) : list Event := fst m.
Definition outcome {A : Type} (m : Eff A) : A := snd m.

(** The lines of a trace, in order, each with its level. *)
Fixpoint lines (tr : list Event) : list (Level * string) :=
  match tr with
  | [] => []
  | Logged lvl l :: tr' => (lvl, l) :: lines tr'
  | Requested _ :: tr' => lines tr'
  end.

(** The requests of a trace, in order. *)
Fixpoint requests (tr : list Event) : list Request.t :=
  match tr with
  | [] => []
  | Requested r :: tr' => r :: requests tr'
  | Logged _ _ :: tr' => requests tr'
  end.

(** ** The operations *)

Section Client.

(** The collaborators: the authenticated request helper with the origin
    it exports, and the terminal styling of the warning's prefix. *)
Variable api_request : Request.t -> Reply.
Variable functionsOrigin : string.
Variable clc_bold_yellow : string -> string.

Definition logger_debug (line : string) : Eff unit := emit (Logged Debug line).
Definition logger_info (line : string) : Eff unit := emit (Logged Info line).
Definition utils_logWarning (line : string) : Eff unit := emit (Logged Warning line).

(** [await api.request(...)]: the request goes out, the reply comes back. *)
Definition request (r : Request.t) : Eff Reply :=
  emit (Requested r) ;;; ret (api_request r).

(** [makeFirebaseError] is an async function whose body ends in [throw]:
    what the caller gets is a promise rejected with the new error. *)
Definition makeFirebaseError (functionName : string)
    (operationType : OperationType) (error : FirebaseError)
  : Eff (Settled Reason FirebaseError) :=
  utils_logWarning
    (clc_bold_yellow "functions:" ++ " failed to " ++
     OperationType_value operationType ++ " function " ++ functionName) ;;;
  (if is_429 (get_statusCode error)
   then logger_debug (message error) ;;;
        logger_info ERR_DEPLOYMENT_QUOTA_EXCEEDED_MESSAGE
   else logger_info (message error)) ;;;
  ret (Rejected (ReasonError
    (FirebaseError_new
       ("Failed to " ++ OperationType_value operationType ++
        " function " ++ functionName)
       (Some error)
       (Some (mkErrorContext None (Some functionName)))))).

(** Modelled from the spec: [logAndRejectOperation], which the failure
    handlers of patchFunction and deleteFunction call, is not defined in
    the module.  The spec gives patch and delete "the same normalization
    as create" with their own action: a warning that names the action
    and the function, the underlying message (the quota hint when the
    response status is 429), then failure with a typed error that
    carries the original cause and a context naming the function. *)
Definition logAndRejectOperation {A : Type} (func type : string)
    (err : FirebaseError) : Eff (Settled Reason A) :=
  utils_logWarning
    (clc_bold_yellow "functions:" ++ " failed to " ++ type ++
     " function " ++ func) ;;;
  (if is_429 (get_statusCode err)
   then logger_debug (message err) ;;;
        logger_info ERR_DEPLOYMENT_QUOTA_EXCEEDED_MESSAGE
   else logger_info (message err)) ;;;
  ret (Rejected (ReasonError
    (FirebaseError_new
       ("Failed to " ++ type ++ " function " ++ func)
       (Some err)
       (Some (mkErrorContext None (Some func)))))).

Definition generateUploadUrl_request (projectId locationName : string)
  : Request.t :=
  let functionsPath := makePath projectId locationName None in
  let generateUploadUrlPath := functionsPath ++ ":generateUploadUrl" in
  Request.mk POST generateUploadUrlPath true (Some false) functionsOrigin
    [503] [] None.

Definition generateUploadUrl (projectId locationName : string)
  : Eff (Settled Reason (option string)) :=
  reply <- request (generateUploadUrl_request projectId locationName) ;;
  match reply with
  | Responded resp => ret (Fulfilled (Body.uploadUrl (body resp)))
  | Failed error =>
      logger_info ERR_GENERATE_UPLOAD_URL_FAILURE_MESSAGE ;;;
      ret (Rejected (ReasonError error))
  end.

Definition createFunction_request (target : Target)
    (cloudFunction : CloudFunction.t) : Request.t :=
  let functionsPath :=
    makePath (projectId target) (locationName target)
      (Some (functionName target)) in
  Request.mk POST functionsPath true None functionsOrigin [] []
    (Some (PayloadFunction cloudFunction)).

(** In the handler, [throw makeFirebaseError(...)] throws the promise the
    call returns: createFunction is rejected with that promise. *)
Definition createFunction (target : Target) (cloudFunction : CloudFunction.t)
  : Eff (Settled Reason Body.t) :=
  reply <- request (createFunction_request target cloudFunction) ;;
  match reply with
  | Responded resp => ret (Fulfilled (body resp))
  | Failed error =>
      p <- makeFirebaseError (CloudFunction.name cloudFunction) Create error ;;
      ret (Rejected (ReasonPromise p))
  end.

(** The update mask of a patch, built as the body of patchFunction does.
    The test [if (options.trigger.eventTrigger)] is the test for [Some]:
    an object is truthy whatever its properties. *)
Definition patch_masks (options : PatchOptions.t) : list string :=
  let masks := ["sourceUploadUrl"; "name"; "labels"] in
  let masks :=
    if Js.truthy_string (PatchOptions.runtime options)
    then (masks ++ ["runtime"])%list else masks in
  let masks :=
    if Js.truthy_number (PatchOptions.availableMemoryMb options)
    then (masks ++ ["availableMemoryMb"])%list else masks in
  let masks :=
    if Js.truthy_string (PatchOptions.timeout options)
    then (masks ++ ["timeout"])%list else masks in
  match TriggerOption.eventTrigger (PatchOptions.trigger options) with
  | Some eventTrigger =>
      (masks ++
       List.map (fun subkey => ("eventTrigger." ++ subkey)%string)
         (Js.keys eventTrigger))%list
  | None => (masks ++ ["httpsTrigger"])%list
  end.

(** The [data] of a patch: the three fixed properties, the two trigger
    properties that [_.assign] copies from [options.trigger], and the
    optional ones that are truthy. *)
Definition patch_data (options : PatchOptions.t) (func : string)
  : PatchData.t :=
  PatchData.mk
    (PatchOptions.sourceUploadUrl options)
    func
    (PatchOptions.labels options)
    (TriggerOption.eventTrigger (PatchOptions.trigger options))
    (TriggerOption.httpsTrigger (PatchOptions.trigger options))
    (if Js.truthy_string (PatchOptions.runtime options)
     then PatchOptions.runtime options else None)
    (if Js.truthy_number (PatchOptions.availableMemoryMb options)
     then PatchOptions.availableMemoryMb options else None)
    (if Js.truthy_string (PatchOptions.timeout options)
     then PatchOptions.timeout options else None).

Definition patchFunction_request (options : PatchOptions.t)
    (func endpoint : string) : Request.t :=
  Request.mk PATCH endpoint true None functionsOrigin []
    [("updateMask", Js.join "," (patch_masks options))]
    (Some (PayloadPatch (patch_data options func))).

(** The parameter list of patchFunction binds the target and the
    descriptor; its body reads [options], [func] and [endpoint], which
    neither the parameter list nor the module binds.  They are taken here
    as what those identifiers hold where the body runs.  [functionsPath],
    the one value computed from the target, is not used, so nothing of
    the target or the descriptor reaches the request or the result. *)
Definition patchFunction (target : Target) (cloudFunction : CloudFunction.t)
    (options : PatchOptions.t) (func endpoint : string)
  : Eff (Settled Reason OperationRecord.t) :=
  let functionsPath :=
    makePath (projectId target) (locationName target)
      (Some (functionName target)) in
  reply <- request (patchFunction_request options func endpoint) ;;
  match reply with
  | Responded resp =>
      ret (Fulfilled
        (OperationRecord.mk func false (Body.name (body resp)) "update"))
  | Failed err =>
      logAndRejectOperation (PatchOptions.functionName options) "update" err
  end.

Definition deleteFunction_func (options : DeleteOptions.t) : string :=
  let location :=
    "projects/" ++ DeleteOptions.projectId options ++ "/locations/" ++
    DeleteOptions.region options in
  location ++ "/functions/" ++ DeleteOptions.functionName options.

Definition deleteFunction_request (options : DeleteOptions.t) : Request.t :=
  let func := deleteFunction_func options in
  let endpoint := "/" ++ API_VERSION ++ "/" ++ func in
  Request.mk DELETE endpoint true None functionsOrigin [] [] None.

Definition deleteFunction (options : DeleteOptions.t)
  : Eff (Settled Reason OperationRecord.t) :=
  let func := deleteFunction_func options in
  reply <- request (deleteFunction_request options) ;;
  match reply with
  | Responded resp =>
      ret (Fulfilled
        (OperationRecord.mk func false (Body.name (body resp)) "delete"))
  | Failed err =>
      logAndRejectOperation (DeleteOptions.functionName options) "delete" err
  end.

Definition listFunctions_request (projectId region : string) : Request.t :=
  let endpoint :=
    "/" ++ API_VERSION ++ "/projects/" ++ projectId ++ "/locations/" ++
    region ++ "/functions" in
  Request.mk GET endpoint true None functionsOrigin [] [] None.

(** The body of the [_.forEach] callback. *)
Definition attach_functionName (f : Listed.t) : Listed.t :=
  Listed.mk (Listed.name f)
    (Some (Js.substring (Listed.name f)
             (Js.lastIndexOf (Listed.name f) "/" + 1)))
    (Listed.others f).

Definition listFunctions (projectId region : string)
  : Eff (Settled Reason (list Listed.t)) :=
  reply <- request (listFunctions_request projectId region) ;;
  match reply with
  | Responded resp =>
      let functionsList :=
        match Body.functions (body resp) with
        | Some fs => fs
        | None => []
        end in
      ret (Fulfilled (List.map attach_functionName functionsList))
  | Failed err =>
      logger_debug ("[functions] failed to list functions for " ++ projectId) ;;;
      logger_debug ("[functions] " ++ message err) ;;;
      ret (Rejected (ReasonMessage (message err)))
  end.

(** *** The operations module *)

Definition getOperation_request (target : OperationTarget.t) : Request.t :=
  Request.mk GET ("/" ++ API_VERSION ++ "/" ++ OperationTarget.name target)
    true None functionsOrigin [] [] None.

Definition getOperation (target : OperationTarget.t)
  : Eff (Settled Reason Body.t) :=
  reply <- request (getOperation_request target) ;;
  match reply with
  | Responded resp => ret (Fulfilled (body resp))
  | Failed error =>
      logger_debug
        ("[functions] failed to get status of operation: " ++
         OperationTarget.name target) ;;;
      logger_debug ("[functions] " ++ message error) ;;;
      ret (Rejected (ReasonError error))
  end.

End Client.

(** ** Notions the properties are stated with *)

(** A mask path of the event-trigger kind: ["eventTrigger."] and a name. *)
Definition is_event_path (p : string) : bool := String.prefix "eventTrigger." p.

Definition is_https_path (p : string) : bool := (p =? "httpsTrigger")%string.

Definition has_event_path (masks : list string) : bool :=
  existsb is_event_path masks.

Definition has_https_path (masks : list string) : bool :=
  existsb is_https_path masks.

(** The paths of a mask that belong to a trigger, in order. *)
Definition trigger_paths (masks : list string) : list string :=
  filter (fun p => is_event_path p || is_https_path p) masks.

(** The part of the mask that the truthy optional fields give. *)
Definition optional_masks (options : PatchOptions.t) : list string :=
  ((if Js.truthy_string (PatchOptions.runtime options)
    then ["runtime"] else []) ++
   (if Js.truthy_number (PatchOptions.availableMemoryMb options)
    then ["availableMemoryMb"] else []) ++
   (if Js.truthy_string (PatchOptions.timeout options)
    then ["timeout"] else []))%list.

(** The part of the mask that the trigger gives. *)
Definition trigger_masks (options : PatchOptions.t) : list string :=
  match TriggerOption.eventTrigger (PatchOptions.trigger options) with
  | Some eventTrigger =>
      List.map (fun subkey => "eventTrigger." ++ subkey) (Js.keys eventTrigger)
  | None => ["httpsTrigger"]
  end.

(** One trigger kind in the mask: not both, not neither. *)
Definition one_trigger_kind (masks : list string) : Prop :=
  xorb (has_event_path masks) (has_https_path masks) = true.

(** The mask follows the presence of the optional fields. *)
Definition mask_follows_presence (options : PatchOptions.t) : Prop :=
  let masks := patch_masks options in
  (In "runtime" masks <-> PatchOptions.runtime options <> None) /\
  (In "availableMemoryMb" masks <->
     PatchOptions.availableMemoryMb options <> None) /\
  (In "timeout" masks <-> PatchOptions.timeout options <> None) /\
  In "sourceUploadUrl" masks /\ In "name" masks /\ In "labels" masks.

(** [suf] is what follows the final ["/"] of [name]. *)
Definition tail_segment (name suf : string) : Prop :=
  exists pre, name = pre ++ "/" ++ suf /\ Js.occurs "/"%char suf = false.

(** The lines a failure handler of create, patch or delete leaves. *)
Definition quota_lines (warning : string) (error : FirebaseError)
  : list (Level * string) :=
  [(Warning, warning); (Debug, message error);
   (Info, ERR_DEPLOYMENT_QUOTA_EXCEEDED_MESSAGE)].

Definition plain_lines (warning : string) (error : FirebaseError)
  : list (Level * string) :=
  [(Warning, warning); (Info, message error)].

(** The warning that opens them. *)
Definition failure_warning (styled : string -> string)
    (operationType functionName : string) : string :=
  styled "functions:" ++ " failed to " ++ operationType ++ " function " ++
  functionName.

(** The typed error of a failed create, patch or delete. *)
Definition wrapped_error (operationType functionName : string)
    (cause : FirebaseError) : FirebaseError :=
  FirebaseError_new
    ("Failed to " ++ operationType ++ " function " ++ functionName)
    (Some cause)
    (Some (mkErrorContext None (Some functionName))).

(** ** Sample inputs *)

Module Sample.

Definition origin : string := "https://cloudfunctions.googleapis.com".

Definition plain (s : string) : string := s.

Definition target : Target := mkTarget "foo" "us-central1" "proj".

Definition descriptor : CloudFunction.t :=
  CloudFunction.mk "projects/proj/locations/us-central1/functions/foo"
    "" ACTIVE "foo" "nodejs10" "60s" 256 "" "" "" [] [] "" 0 ""
    (sourceUploadUrl "https://storage.googleapis.com/upload")
    (Trigger.mk "https://us-central1-proj.cloudfunctions.net/foo" "" "" "" []).

Definition quota_error : FirebaseError :=
  FirebaseError_new "HTTP Error: 429, Quota exceeded" None
    (Some (mkErrorContext (Some (mkErrorResponse (Some 429))) None)).

Definition server_error : FirebaseError :=
  FirebaseError_new "HTTP Error: 500, Internal error" None
    (Some (mkErrorContext (Some (mkErrorResponse (Some 500))) None)).

Definition listed : list Listed.t :=
  [Listed.mk "projects/proj/locations/us-central1/functions/fooBar" None []].

Definition answer : Response :=
  mkResponse (Body.mk (Some "operations/cHJvai9mb28") None (Some listed) []).

Definition bare_answer : Response :=
  mkResponse (Body.mk None None None []).

(** Transports that answer every request the same way. *)
Definition failing (e : FirebaseError) (_ : Request.t) : Reply := Failed e.
Definition answering (r : Response) (_ : Request.t) : Reply := Responded r.

Definition https_options : PatchOptions.t :=
  PatchOptions.mk (Some "https://storage.googleapis.com/upload") []
    (TriggerOption.mk None (Some [])) (Some "nodejs10") (Some 256)
    (Some "60s") "foo".

Definition event_options : PatchOptions.t :=
  PatchOptions.mk (Some "https://storage.googleapis.com/upload") []
    (TriggerOption.mk
       (Some [("eventType", Js.VString "providers/cloud.pubsub/eventTypes/topic.publish");
              ("resource", Js.VString "projects/proj/topics/t")])
       None)
    None None None "foo".

Definition event_trigger : EventTrigger.t :=
  EventTrigger.mk "providers/cloud.pubsub/eventTypes/topic.publish"
    "projects/proj/topics/t" "pubsub.googleapis.com" [].

Definition typed_event_options : PatchOptions.t :=
  PatchOptions.mk (Some "https://storage.googleapis.com/upload") []
    (TriggerOption.mk (Some (EventTrigger.to_object event_trigger)) None)
    None None None "foo".

(** Another target, and the resource name of another function. *)
Definition other_target : Target := mkTarget "bar" "europe-west1" "other".

Definition other_func : string :=
  "projects/other/locations/europe-west1/functions/bar".

(** An event trigger with no sub-field. *)
Definition empty_event_options : PatchOptions.t :=
  PatchOptions.mk (Some "https://storage.googleapis.com/upload") []
    (TriggerOption.mk (Some []) None) None None None "foo".

(** A runtime that is supplied and empty. *)
Definition empty_runtime_options : PatchOptions.t :=
  PatchOptions.mk (Some "https://storage.googleapis.com/upload") []
    (TriggerOption.mk None (Some [])) (Some "") None None "foo".

Definition delete_options : DeleteOptions.t :=
  DeleteOptions.mk "proj" "us-central1" "foo".

Definition func : string :=
  "projects/proj/locations/us-central1/functions/foo".

Definition endpoint : string :=
  "/v1/projects/proj/locations/us-central1/functions/foo".

End Sample.

(** * Properties *)

(** ** Strings *)

Lemma append_assoc (a b c : string) : ((a ++ b) ++ c = a ++ (b ++ c))%string.
Proof.
  induction a as [|ch a IH]; simpl; [reflexivity | now rewrite IH].
Qed.

Lemma append_length (a b : string) :
  String.length (a ++ b) = (String.length a + String.length b)%nat.
Proof.
  induction a as [|ch a IH]; simpl; [reflexivity | now rewrite IH].
Qed.

Lemma makePath_collection (p l : string) :
  makePath p l None = collection_path p l.
Proof.
  unfold makePath, collection_path, API_VERSION.
  now rewrite !append_assoc.
Qed.

Lemma makePath_item (p l f : string) :
  makePath p l (Some f) = (collection_path p l ++ "/" ++ f)%string.
Proof.
  unfold makePath, collection_path, API_VERSION.
  now rewrite !append_assoc.
Qed.

(** C9: the path helper answers the collection path of project [p] and
    location [l] when no function name is given, and that path followed by
    ["/"] and the name [f] when [f] is given. *)
Theorem makePath_paths (p l f : string) :
  makePath p l None =
    "/v1/projects/" ++ p ++ "/locations/" ++ l ++ "/functions" /\
  makePath p l (Some f) =
    "/v1/projects/" ++ p ++ "/locations/" ++ l ++ "/functions/" ++ f.
Proof.
  split.
  - apply makePath_collection.
  - rewrite makePath_item. unfold collection_path.
    now rewrite !append_assoc.
Qed.

Lemma prefix_empty (s : string) : String.prefix "" s = true.
Proof. now destruct s. Qed.

Lemma prefix_slash (c : ascii) (s : string) :
  String.prefix "/" (String c s) = Ascii.eqb "/"%char c.
Proof.
  change (String.prefix "/" (String c s))
    with (if ascii_dec "/"%char c then String.prefix "" s else false).
  destruct (ascii_dec "/"%char c) as [Heq|Hne].
  - rewrite prefix_empty, <- Heq. reflexivity.
  - symmetry. now apply Ascii.eqb_neq.
Qed.

(** Past the last ["/"] the scan keeps what it has. *)
Lemma scan_without_slash (s : string) (i acc : Z) :
  Js.occurs "/"%char s = false -> Js.scan "/" s i acc = acc.
Proof.
  revert i acc. induction s as [|c s IH]; intros i acc Hs.
  - reflexivity.
  - change (Js.occurs "/"%char (String c s))
      with (Ascii.eqb "/"%char c || Js.occurs "/"%char s) in Hs.
    apply orb_false_iff in Hs as [Hc Hs].
    change (Js.scan "/" (String c s) i acc)
      with (Js.scan "/" s (i + 1)
              (if String.prefix "/" (String c s) then i else acc)).
    rewrite prefix_slash, Hc. now apply IH.
Qed.

(** The scan stops its memory at the last ["/"]. *)
Lemma scan_last_slash (pre suf : string) (i acc : Z) :
  Js.occurs "/"%char suf = false ->
  Js.scan "/" (pre ++ String "/" suf) i acc = i + Z.of_nat (String.length pre).
Proof.
  intros Hsuf. revert i acc.
  induction pre as [|c pre IH]; intros i acc.
  - change (Js.scan "/" ("" ++ String "/" suf) i acc)
      with (Js.scan "/" suf (i + 1)
              (if String.prefix "/" (String "/" suf) then i else acc)).
    rewrite prefix_slash, Ascii.eqb_refl.
    rewrite scan_without_slash by assumption. simpl. lia.
  - change (Js.scan "/" (String c pre ++ String "/" suf) i acc)
      with (Js.scan "/" (pre ++ String "/" suf) (i + 1)
              (if String.prefix "/" (String c (pre ++ String "/" suf))
               then i else acc)).
    rewrite IH. simpl String.length. lia.
Qed.

Lemma drop_app (pre s : string) : Js.drop (String.length pre) (pre ++ s) = s.
Proof.
  induction pre as [|c pre IH]; simpl; [now destruct s | exact IH].
Qed.

(** What the list call computes from a name that has a ["/"]. *)
Lemma substring_after_last_slash (pre suf : string) :
  Js.occurs "/"%char suf = false ->
  let name := pre ++ "/" ++ suf in
  Js.substring name (Js.lastIndexOf name "/" + 1) = suf.
Proof.
  intros Hsuf name. unfold name, Js.lastIndexOf, Js.substring.
  change ("/" ++ suf) with (String "/" suf).
  rewrite scan_last_slash by assumption.
  replace (Z.to_nat (Z.max 0 (0 + Z.of_nat (String.length pre) + 1)))
    with (String.length (pre ++ "/")).
  - change (String "/" suf) with ("/" ++ suf).
    rewrite <- append_assoc. apply drop_app.
  - rewrite append_length. simpl. lia.
Qed.

(** And from a name that has none: the name itself. *)
Lemma substring_without_slash (name : string) :
  Js.occurs "/"%char name = false ->
  Js.substring name (Js.lastIndexOf name "/" + 1) = name.
Proof.
  intros Hname. unfold Js.lastIndexOf, Js.substring.
  now rewrite scan_without_slash.
Qed.

(** ** The operations *)

Section Properties.

Variable api_request : Request.t -> Reply.
Variable functionsOrigin : string.
Variable clc_bold_yellow : string -> string.

Lemma is_429_iff (x : option Z) : is_429 x = true <-> x = Some 429.
Proof.
  destruct x as [n|]; simpl.
  - rewrite Z.eqb_eq. split; [now intros -> | now intros [= ->]].
  - split; discriminate.
Qed.

(** The lines of the failure handlers: the quota lines on 429 and on
    nothing else, the plain lines otherwise. *)
Lemma handler_lines (w : string) (error : FirebaseError) :
  let log :=
    if is_429 (get_statusCode error)
    then quota_lines w error else plain_lines w error in
  (log = quota_lines w error <-> get_statusCode error = Some 429) /\
  (log = plain_lines w error <-> get_statusCode error <> Some 429).
Proof.
  intros log. subst log. rewrite <- is_429_iff.
  destruct (is_429 (get_statusCode error)); unfold quota_lines, plain_lines;
    (split; split; try reflexivity; try discriminate; try congruence).
Qed.

Lemma makeFirebaseError_lines (name : string) (op : OperationType)
    (error : FirebaseError) :
  lines (events (makeFirebaseError clc_bold_yellow name op error)) =
  if is_429 (get_statusCode error)
  then quota_lines (failure_warning clc_bold_yellow (OperationType_value op) name) error
  else plain_lines (failure_warning clc_bold_yellow (OperationType_value op) name) error.
Proof.
  unfold makeFirebaseError, events, bind, utils_logWarning, logger_debug,
    logger_info, emit, ret.
  now destruct (is_429 (get_statusCode error)).
Qed.

Lemma makeFirebaseError_outcome (name : string) (op : OperationType)
    (error : FirebaseError) :
  outcome (makeFirebaseError clc_bold_yellow name op error) =
  Rejected (ReasonError (wrapped_error (OperationType_value op) name error)).
Proof.
  unfold makeFirebaseError, outcome, bind, utils_logWarning, logger_debug,
    logger_info, emit, ret.
  now destruct (is_429 (get_statusCode error)).
Qed.

Lemma logAndRejectOperation_lines (A : Type) (func type : string)
    (err : FirebaseError) :
  lines (events (@logAndRejectOperation clc_bold_yellow A func type err)) =
  if is_429 (get_statusCode err)
  then quota_lines (failure_warning clc_bold_yellow type func) err
  else plain_lines (failure_warning clc_bold_yellow type func) err.
Proof.
  unfold logAndRejectOperation, events, bind, utils_logWarning, logger_debug,
    logger_info, emit, ret.
  now destruct (is_429 (get_statusCode err)).
Qed.

Lemma logAndRejectOperation_outcome (A : Type) (func type : string)
    (err : FirebaseError) :
  outcome (@logAndRejectOperation clc_bold_yellow A func type err) =
  Rejected (ReasonError (wrapped_error type func err)).
Proof.
  unfold logAndRejectOperation, outcome, bind, utils_logWarning, logger_debug,
    logger_info, emit, ret.
  now destruct (is_429 (get_statusCode err)).
Qed.

(** The trace and the outcome of a computation that starts with a
    request, by the reply. *)
Lemma bind_events {A B : Type} (m : Eff A) (k : A -> Eff B) :
  events (bind m k) = (events m ++ events (k (outcome m)))%list.
Proof.
  unfold events, outcome, bind. destruct m as [t a]. simpl.
  now destruct (k a).
Qed.

Lemma bind_outcome {A B : Type} (m : Eff A) (k : A -> Eff B) :
  outcome (bind m k) = outcome (k (outcome m)).
Proof.
  unfold outcome, bind. destruct m as [t a]. simpl.
  now destruct (k a).
Qed.

Lemma request_events (r : Request.t) :
  events (request api_request r) = [Requested r].
Proof. reflexivity. Qed.

Lemma request_outcome (r : Request.t) :
  outcome (request api_request r) = api_request r.
Proof. reflexivity. Qed.

Lemma lines_app (t1 t2 : list Event) :
  lines (t1 ++ t2) = (lines t1 ++ lines t2)%list.
Proof.
  induction t1 as [|[r|lvl l] t1 IH]; simpl; [reflexivity | exact IH |].
  now rewrite IH.
Qed.

Lemma requests_app (t1 t2 : list Event) :
  requests (t1 ++ t2) = (requests t1 ++ requests t2)%list.
Proof.
  induction t1 as [|[r|lvl l] t1 IH]; simpl; [reflexivity | | exact IH].
  now rewrite IH.
Qed.

Lemma makeFirebaseError_requests (name : string) (op : OperationType)
    (error : FirebaseError) :
  requests (events (makeFirebaseError clc_bold_yellow name op error)) = [].
Proof.
  unfold makeFirebaseError, events, bind, utils_logWarning, logger_debug,
    logger_info, emit, ret.
  now destruct (is_429 (get_statusCode error)).
Qed.

(** *** Paths *)

Lemma item_path_is_longer (p l f : string) :
  makePath p l (Some f) <> makePath p l None.
Proof.
  rewrite makePath_item, makePath_collection. intros Heq.
  apply (f_equal String.length) in Heq.
  rewrite append_length in Heq. simpl in Heq. lia.
Qed.

(** C1: the create operation issues one request, a POST, and its path is
    the path of the item: the collection path of the target's project
    and location followed by ["/"] and the target's function name.  It
    is never the collection path. *)
Theorem createFunction_posts_to_item_path (target : Target)
    (cloudFunction : CloudFunction.t) :
  exists r,
    requests (events (createFunction api_request functionsOrigin
                        clc_bold_yellow target cloudFunction)) = [r] /\
    Request.method r = POST /\
    Request.path r =
      "/v1/projects/" ++ projectId target ++ "/locations/" ++
      locationName target ++ "/functions/" ++ functionName target /\
    Request.path r <>
      "/v1/projects/" ++ projectId target ++ "/locations/" ++
      locationName target ++ "/functions".
Proof.
  exists (createFunction_request functionsOrigin target cloudFunction).
  split; [|split; [reflexivity|split]].
  - unfold createFunction. rewrite bind_events, request_events, request_outcome.
    rewrite requests_app. simpl.
    destruct (api_request _) as [resp|error]; [reflexivity|].
    rewrite bind_events, requests_app, makeFirebaseError_requests.
    reflexivity.
  - change (Request.path (createFunction_request functionsOrigin target
                             cloudFunction))
      with (makePath (projectId target) (locationName target)
              (Some (functionName target))).
    rewrite makePath_item. unfold collection_path.
    now rewrite !append_assoc.
  - change (Request.path (createFunction_request functionsOrigin target
                             cloudFunction))
      with (makePath (projectId target) (locationName target)
              (Some (functionName target))).
    change ("/v1/projects/" ++ projectId target ++ "/locations/" ++
            locationName target ++ "/functions")
      with (collection_path (projectId target) (locationName target)).
    rewrite <- makePath_collection. apply item_path_is_longer.
Qed.

(** *** Failures *)

(** C5: when a create, patch or delete request fails, the handler's lines
    are the warning, the underlying message at debug level and the quota
    remediation message exactly when the status code nested in the
    error is 429; with any other status code, or none, they are the
    warning and the underlying message at info level. *)
Theorem failure_lines_quota_iff_429 (target : Target)
    (cloudFunction : CloudFunction.t) (options : PatchOptions.t)
    (func endpoint : string) (doptions : DeleteOptions.t)
    (error : FirebaseError) :
  (api_request (createFunction_request functionsOrigin target cloudFunction)
     = Failed error ->
   let log :=
     lines (events (createFunction api_request functionsOrigin
                      clc_bold_yellow target cloudFunction)) in
   let w := failure_warning clc_bold_yellow "create"
              (CloudFunction.name cloudFunction) in
   (log = quota_lines w error <-> get_statusCode error = Some 429) /\
   (log = plain_lines w error <-> get_statusCode error <> Some 429)) /\
  (api_request (patchFunction_request functionsOrigin options func endpoint)
     = Failed error ->
   let log :=
     lines (events (patchFunction api_request functionsOrigin
                      clc_bold_yellow target cloudFunction options func
                      endpoint)) in
   let w := failure_warning clc_bold_yellow "update"
              (PatchOptions.functionName options) in
   (log = quota_lines w error <-> get_statusCode error = Some 429) /\
   (log = plain_lines w error <-> get_statusCode error <> Some 429)) /\
  (api_request (deleteFunction_request functionsOrigin doptions)
     = Failed error ->
   let log :=
     lines (events (deleteFunction api_request functionsOrigin
                      clc_bold_yellow doptions)) in
   let w := failure_warning clc_bold_yellow "delete"
              (DeleteOptions.functionName doptions) in
   (log = quota_lines w error <-> get_statusCode error = Some 429) /\
   (log = plain_lines w error <-> get_statusCode error <> Some 429)).
Proof.
  split; [|split]; intros Hfail log w; subst log.
  - unfold createFunction.
    rewrite bind_events, request_events, request_outcome, Hfail.
    rewrite bind_events, lines_app, lines_app, makeFirebaseError_lines.
    simpl. rewrite app_nil_r. apply handler_lines.
  - unfold patchFunction.
    rewrite bind_events, request_events, request_outcome, Hfail.
    rewrite lines_app, logAndRejectOperation_lines.
    simpl. apply handler_lines.
  - unfold deleteFunction.
    rewrite bind_events, request_events, request_outcome, Hfail.
    rewrite lines_app, logAndRejectOperation_lines.
    simpl. apply handler_lines.
Qed.

(** C6: when the request of generateUploadUrl fails, the operation logs
    its remediation line and is rejected with the error it received;
    when the request of getOperation fails, the operation logs its two
    debug lines and is rejected with the error it received. *)
Theorem upload_url_and_operation_rethrow (projectId locationName : string)
    (target : OperationTarget.t) (error : FirebaseError) :
  (api_request (generateUploadUrl_request functionsOrigin projectId
                  locationName) = Failed error ->
   outcome (generateUploadUrl api_request functionsOrigin projectId
              locationName) = Rejected (ReasonError error) /\
   lines (events (generateUploadUrl api_request functionsOrigin projectId
                    locationName)) =
     [(Info, ERR_GENERATE_UPLOAD_URL_FAILURE_MESSAGE)]) /\
  (api_request (getOperation_request functionsOrigin target) = Failed error ->
   outcome (getOperation api_request functionsOrigin target) =
     Rejected (ReasonError error) /\
   lines (events (getOperation api_request functionsOrigin target)) =
     [(Debug, "[functions] failed to get status of operation: " ++
              OperationTarget.name target);
      (Debug, "[functions] " ++ message error)]).
Proof.
  split; intros Hfail.
  - unfold generateUploadUrl.
    rewrite bind_outcome, bind_events, request_events, request_outcome, Hfail.
    split; reflexivity.
  - unfold getOperation.
    rewrite bind_outcome, bind_events, request_events, request_outcome, Hfail.
    split; reflexivity.
Qed.

(** C7: when its request fails, createFunction is rejected with a promise
    object, the one makeFirebaseError returned, not with an error: the
    typed error "Failed to create function <name>", with the original
    error as its cause and a context naming the function, is what that
    inner promise is rejected with, and <name> is the name property of
    the descriptor.  patchFunction and deleteFunction are rejected with
    the typed error itself. *)
Theorem createFunction_rejects_with_a_promise (target : Target)
    (cloudFunction : CloudFunction.t) (options : PatchOptions.t)
    (func endpoint : string) (doptions : DeleteOptions.t)
    (error : FirebaseError) :
  (api_request (createFunction_request functionsOrigin target cloudFunction)
     = Failed error ->
   outcome (createFunction api_request functionsOrigin clc_bold_yellow
              target cloudFunction) =
   Rejected (ReasonPromise (Rejected (ReasonError
     (wrapped_error "create" (CloudFunction.name cloudFunction) error))))) /\
  (api_request (patchFunction_request functionsOrigin options func endpoint)
     = Failed error ->
   outcome (patchFunction api_request functionsOrigin clc_bold_yellow
              target cloudFunction options func endpoint) =
   Rejected (ReasonError
     (wrapped_error "update" (PatchOptions.functionName options) error))) /\
  (api_request (deleteFunction_request functionsOrigin doptions)
     = Failed error ->
   outcome (deleteFunction api_request functionsOrigin clc_bold_yellow
              doptions) =
   Rejected (ReasonError
     (wrapped_error "delete" (DeleteOptions.functionName doptions) error))).
Proof.
  split; [|split]; intros Hfail.
  - unfold createFunction.
    rewrite bind_outcome, request_outcome, Hfail.
    rewrite bind_outcome, makeFirebaseError_outcome. reflexivity.
  - unfold patchFunction.
    rewrite bind_outcome, request_outcome, Hfail.
    apply logAndRejectOperation_outcome.
  - unfold deleteFunction.
    rewrite bind_outcome, request_outcome, Hfail.
    apply logAndRejectOperation_outcome.
Qed.

(** *** Successes *)

(** C8: a delete whose request succeeds answers the record of the
    resource name built from its options, [done] false, the name of the
    response body and type "delete".  A patch whose request succeeds
    answers a record with [done] false, the name of the response body and
    type "update", whose [func] is whatever the identifier [func] holds
    where the body runs: it is the same record for every target and every
    descriptor, so it does not identify the target of the call. *)
Theorem patch_record_ignores_the_target (target target' : Target)
    (cloudFunction cloudFunction' : CloudFunction.t)
    (options : PatchOptions.t)
    (func endpoint : string) (doptions : DeleteOptions.t)
    (resp : Response) :
  (api_request (patchFunction_request functionsOrigin options func endpoint)
     = Responded resp ->
   outcome (patchFunction api_request functionsOrigin clc_bold_yellow
              target cloudFunction options func endpoint) =
   Fulfilled (OperationRecord.mk func false (Body.name (body resp))
                "update") /\
   outcome (patchFunction api_request functionsOrigin clc_bold_yellow
              target' cloudFunction' options func endpoint) =
   Fulfilled (OperationRecord.mk func false (Body.name (body resp))
                "update")) /\
  (api_request (deleteFunction_request functionsOrigin doptions)
     = Responded resp ->
   outcome (deleteFunction api_request functionsOrigin clc_bold_yellow
              doptions) =
   Fulfilled (OperationRecord.mk
                ("projects/" ++ DeleteOptions.projectId doptions ++
                 "/locations/" ++ DeleteOptions.region doptions ++
                 "/functions/" ++ DeleteOptions.functionName doptions)
                false (Body.name (body resp)) "delete")).
Proof.
  split; intros Hok.
  - unfold patchFunction.
    now rewrite !bind_outcome, request_outcome, Hok.
  - unfold deleteFunction.
    rewrite bind_outcome, request_outcome, Hok.
    unfold outcome, ret, deleteFunction_func. simpl.
    now rewrite !append_assoc.
Qed.

Lemma attach_functionName_tail (f : Listed.t) (suf : string) :
  tail_segment (Listed.name f) suf ->
  Listed.functionName (attach_functionName f) = Some suf.
Proof.
  intros [pre [Hname Hsuf]]. unfold attach_functionName. simpl.
  rewrite Hname. f_equal. now apply substring_after_last_slash.
Qed.

(** C4: when the list request succeeds with a sequence of functions, the
    operation answers a sequence of the same functions in the same
    order, each keeping its name and other properties and carrying as
    functionName what follows the final "/" of its name (the whole name
    when it has no "/"). *)
Theorem listFunctions_attaches_tail_segment (projectId region : string)
    (resp : Response) (returned : list Listed.t) :
  api_request (listFunctions_request functionsOrigin projectId region)
    = Responded resp ->
  Body.functions (body resp) = Some returned ->
  exists fs,
    outcome (listFunctions api_request functionsOrigin projectId region)
      = Fulfilled fs /\
    Forall2
      (fun f g =>
         Listed.name g = Listed.name f /\
         Listed.others g = Listed.others f /\
         (forall suf, tail_segment (Listed.name f) suf ->
                      Listed.functionName g = Some suf) /\
         (Js.occurs "/"%char (Listed.name f) = false ->
          Listed.functionName g = Some (Listed.name f)))
      returned fs.
Proof.
  intros Hok Hfs. exists (List.map attach_functionName returned). split.
  - unfold listFunctions.
    now rewrite bind_outcome, request_outcome, Hok, Hfs.
  - clear Hfs. induction returned as [|f rest IH]; simpl; constructor.
    + repeat split.
      * apply attach_functionName_tail.
      * intros Hnone. unfold attach_functionName. simpl. f_equal.
        now apply substring_without_slash.
    + exact IH.
Qed.

(** C10: when the list request succeeds and the body has no functions
    property, the operation answers the empty sequence. *)
Theorem listFunctions_without_functions (projectId region : string)
    (resp : Response) :
  api_request (listFunctions_request functionsOrigin projectId region)
    = Responded resp ->
  Body.functions (body resp) = None ->
  outcome (listFunctions api_request functionsOrigin projectId region)
    = Fulfilled [].
Proof.
  intros Hok Hnone. unfold listFunctions.
  now rewrite bind_outcome, request_outcome, Hok, Hnone.
Qed.

End Properties.

(** ** The update mask *)

Section UpdateMask.

Variable options : PatchOptions.t.

Let eventTrigger := TriggerOption.eventTrigger (PatchOptions.trigger options).

Lemma patch_masks_shape :
  patch_masks options =
  (["sourceUploadUrl"; "name"; "labels"] ++
   optional_masks options ++ trigger_masks options)%list.
Proof.
  unfold patch_masks, optional_masks, trigger_masks.
  destruct (Js.truthy_string (PatchOptions.runtime options)),
    (Js.truthy_number (PatchOptions.availableMemoryMb options)),
    (Js.truthy_string (PatchOptions.timeout options)),
    (TriggerOption.eventTrigger (PatchOptions.trigger options));
    reflexivity.
Qed.

Lemma prefix_append (a b : string) : String.prefix a (a ++ b) = true.
Proof.
  induction a as [|c a IH].
  - apply prefix_empty.
  - change (String.prefix (String c a) (String c a ++ b))
      with (if ascii_dec c c then String.prefix a (a ++ b) else false).
    destruct (ascii_dec c c) as [_|Hne]; [exact IH | now elim Hne].
Qed.

Lemma event_path_of_subkey (k : string) :
  is_event_path ("eventTrigger." ++ k) = true /\
  is_https_path ("eventTrigger." ++ k) = false.
Proof.
  split; [apply prefix_append | reflexivity].
Qed.

Lemma trigger_paths_of_subkeys (ks : list string) :
  trigger_paths (List.map (fun k => "eventTrigger." ++ k) ks) =
  List.map (fun k => "eventTrigger." ++ k) ks.
Proof.
  unfold trigger_paths. induction ks as [|k ks IH]; [reflexivity|].
  cbn [List.map filter].
  destruct (event_path_of_subkey k) as [-> _]. cbn [orb]. now rewrite IH.
Qed.

Lemma has_event_path_of_subkeys (ks : list string) :
  has_event_path (List.map (fun k => "eventTrigger." ++ k) ks) =
  match ks with [] => false | _ :: _ => true end.
Proof.
  destruct ks as [|k ks]; [reflexivity|].
  unfold has_event_path. cbn [List.map existsb].
  now destruct (event_path_of_subkey k) as [-> _].
Qed.

Lemma has_https_path_of_subkeys (ks : list string) :
  has_https_path (List.map (fun k => "eventTrigger." ++ k) ks) = false.
Proof.
  unfold has_https_path. induction ks as [|k ks IH]; [reflexivity|].
  cbn [List.map existsb].
  destruct (event_path_of_subkey k) as [_ ->]. exact IH.
Qed.

(** The fixed and the optional paths are of neither trigger kind. *)
Lemma no_trigger_path_before :
  let before := (["sourceUploadUrl"; "name"; "labels"] ++
                 optional_masks options)%list in
  trigger_paths before = [] /\
  has_event_path before = false /\ has_https_path before = false.
Proof.
  unfold optional_masks.
  destruct (Js.truthy_string (PatchOptions.runtime options)),
    (Js.truthy_number (PatchOptions.availableMemoryMb options)),
    (Js.truthy_string (PatchOptions.timeout options));
    repeat split; reflexivity.
Qed.

Lemma keys_nil (o : Js.object) : Js.keys o = [] <-> o = [].
Proof.
  destruct o; simpl; split; congruence.
Qed.

(** The trigger paths of the update mask as the model lists them: the
    paths "eventTrigger.<subkey>" of the keys of the event trigger when
    one is supplied, the single path "httpsTrigger" when none is.  The
    mask never has paths of both kinds; an event trigger with no key, an
    object that the EventTrigger interface does not admit, would leave it
    with paths of neither kind. *)
Lemma patch_mask_trigger_paths :
  let masks := patch_masks options in
  trigger_paths masks =
    match eventTrigger with
    | Some o => List.map (fun k => "eventTrigger." ++ k) (Js.keys o)
    | None => ["httpsTrigger"]
    end /\
  has_event_path masks && has_https_path masks = false /\
  (one_trigger_kind masks <-> eventTrigger <> Some []).
Proof.
  intros masks. subst masks. rewrite patch_masks_shape.
  destruct no_trigger_path_before as [Hnone [Hev Hht]].
  unfold one_trigger_kind, trigger_paths, has_event_path, has_https_path in *.
  rewrite app_assoc.
  set (before := (["sourceUploadUrl"; "name"; "labels"] ++
                  optional_masks options)%list) in *.
  rewrite filter_app, (existsb_app is_event_path before),
    (existsb_app is_https_path before), Hnone, Hev, Hht.
  cbn [app orb]. unfold trigger_masks. subst eventTrigger.
  destruct (TriggerOption.eventTrigger (PatchOptions.trigger options))
    as [o|].
  - fold (trigger_paths (List.map (fun k => "eventTrigger." ++ k) (Js.keys o))).
    fold (has_event_path (List.map (fun k => "eventTrigger." ++ k) (Js.keys o))).
    fold (has_https_path (List.map (fun k => "eventTrigger." ++ k) (Js.keys o))).
    rewrite trigger_paths_of_subkeys, has_event_path_of_subkeys,
      has_https_path_of_subkeys.
    split; [reflexivity|]. split; [apply andb_false_r|].
    destruct o as [|kv o]; simpl.
    + split; [discriminate | intros H; now elim H].
    + split; [discriminate | reflexivity].
  - repeat split; discriminate.
Qed.

Lemma truthy_string_iff (v : option string) :
  Js.truthy_string v = true <-> exists s, v = Some s /\ s <> "".
Proof.
  destruct v as [s|]; simpl.
  - rewrite negb_true_iff, String.eqb_neq. split.
    + intros H. now exists s.
    + now intros [s' [[= <-] H]].
  - split; [discriminate | now intros [s [H _]]].
Qed.

Lemma truthy_number_iff (v : option Z) :
  Js.truthy_number v = true <-> exists n, v = Some n /\ n <> 0.
Proof.
  destruct v as [n|]; simpl.
  - rewrite negb_true_iff, Z.eqb_neq. split.
    + intros H. now exists n.
    + now intros [n' [[= <-] H]].
  - split; [discriminate | now intros [n [H _]]].
Qed.

(** A path of neither trigger kind is not in the trigger's part. *)
Lemma not_in_trigger_masks (p : string) :
  is_event_path p = false -> is_https_path p = false ->
  ~ In p (trigger_masks options).
Proof.
  intros Hev Hht Hin. unfold trigger_masks in Hin.
  destruct (TriggerOption.eventTrigger (PatchOptions.trigger options))
    as [o|].
  - apply in_map_iff in Hin as [k [<- _]].
    destruct (event_path_of_subkey k) as [Hk _]. congruence.
  - destruct Hin as [<-|[]]. discriminate.
Qed.

Lemma In_optional_masks :
  (In "runtime" (optional_masks options) <->
   Js.truthy_string (PatchOptions.runtime options) = true) /\
  (In "availableMemoryMb" (optional_masks options) <->
   Js.truthy_number (PatchOptions.availableMemoryMb options) = true) /\
  (In "timeout" (optional_masks options) <->
   Js.truthy_string (PatchOptions.timeout options) = true).
Proof.
  unfold optional_masks.
  destruct (Js.truthy_string (PatchOptions.runtime options)),
    (Js.truthy_number (PatchOptions.availableMemoryMb options)),
    (Js.truthy_string (PatchOptions.timeout options)); simpl;
    intuition (try discriminate; try reflexivity).
Qed.

Lemma In_patch_masks (p : string) :
  ~ In p ["sourceUploadUrl"; "name"; "labels"] ->
  is_event_path p = false -> is_https_path p = false ->
  (In p (patch_masks options) <-> In p (optional_masks options)).
Proof.
  intros Hfixed Hev Hht. rewrite patch_masks_shape, !in_app_iff.
  pose proof (not_in_trigger_masks p Hev Hht). tauto.
Qed.

Ltac not_fixed := simpl; intuition discriminate.

(** C3: the update mask has the path of runtime, of availableMemoryMb
    and of timeout exactly when the field is supplied with a truthy
    value (a string that is not empty, a number that is not zero); it
    always has the paths sourceUploadUrl, name and labels; it has no
    path for an optional field that is absent. *)
Theorem patch_mask_optional_paths :
  let masks := patch_masks options in
  (In "runtime" masks <->
     exists s, PatchOptions.runtime options = Some s /\ s <> "") /\
  (In "availableMemoryMb" masks <->
     exists n, PatchOptions.availableMemoryMb options = Some n /\ n <> 0) /\
  (In "timeout" masks <->
     exists s, PatchOptions.timeout options = Some s /\ s <> "") /\
  (In "sourceUploadUrl" masks /\ In "name" masks /\ In "labels" masks) /\
  (PatchOptions.runtime options = None -> ~ In "runtime" masks) /\
  (PatchOptions.availableMemoryMb options = None ->
     ~ In "availableMemoryMb" masks) /\
  (PatchOptions.timeout options = None -> ~ In "timeout" masks).
Proof.
  intros masks. subst masks.
  destruct In_optional_masks as [Hr [Hm Ht]].
  assert (Er : In "runtime" (patch_masks options) <->
               Js.truthy_string (PatchOptions.runtime options) = true).
  { rewrite In_patch_masks; [exact Hr | not_fixed | reflexivity..]. }
  assert (Em : In "availableMemoryMb" (patch_masks options) <->
               Js.truthy_number (PatchOptions.availableMemoryMb options)
               = true).
  { rewrite In_patch_masks; [exact Hm | not_fixed | reflexivity..]. }
  assert (Et : In "timeout" (patch_masks options) <->
               Js.truthy_string (PatchOptions.timeout options) = true).
  { rewrite In_patch_masks; [exact Ht | not_fixed | reflexivity..]. }
  rewrite Er, Em, Et.
  split; [apply truthy_string_iff|].
  split; [apply truthy_number_iff|].
  split; [apply truthy_string_iff|].
  split.
  - rewrite patch_masks_shape. repeat split; simpl; auto 6.
  - repeat split; intros -> ; simpl; discriminate.
Qed.

Lemma has_paths_of_masks :
  has_event_path (patch_masks options) = has_event_path (trigger_masks options) /\
  has_https_path (patch_masks options) = has_https_path (trigger_masks options).
Proof.
  rewrite patch_masks_shape, app_assoc.
  destruct no_trigger_path_before as [_ [Hev Hht]].
  unfold has_event_path, has_https_path in *.
  set (before := (["sourceUploadUrl"; "name"; "labels"] ++
                  optional_masks options)%list) in *.
  now rewrite (existsb_app is_event_path before),
    (existsb_app is_https_path before), Hev, Hht.
Qed.

(** C2: whenever the supplied event trigger, if there is one, has at least
    one sub-field (as every EventTrigger has, with its four required
    fields), the update mask has paths of exactly one trigger kind, never
    both and never neither: with an event trigger its trigger paths are
    the paths "eventTrigger.<subkey>", one per sub-field, and it has no
    "httpsTrigger" path; with none its only trigger path is
    "httpsTrigger". *)
Theorem patch_mask_one_trigger_kind :
  (forall o, eventTrigger = Some o -> o <> []) ->
  let masks := patch_masks options in
  one_trigger_kind masks /\
  match eventTrigger with
  | Some o =>
      (forall p, In p (trigger_paths masks) <->
                 exists k, In k (Js.keys o) /\ p = "eventTrigger." ++ k) /\
      length (trigger_paths masks) = length (Js.keys o) /\
      has_event_path masks = true /\ has_https_path masks = false
  | None =>
      trigger_paths masks = ["httpsTrigger"] /\
      has_event_path masks = false /\ has_https_path masks = true
  end.
Proof.
  intros Hfields masks. subst masks.
  pose proof patch_mask_trigger_paths as Hall. cbv zeta in Hall.
  destruct Hall as [Hpaths [_ Hone]].
  destruct has_paths_of_masks as [Hev Hht].
  split.
  - apply Hone. intros Hempty. now apply (Hfields [] Hempty).
  - rewrite Hpaths, Hev, Hht. unfold trigger_masks. subst eventTrigger.
    destruct (TriggerOption.eventTrigger (PatchOptions.trigger options))
      as [o|] eqn:Ho.
    + rewrite has_event_path_of_subkeys, has_https_path_of_subkeys.
      repeat split.
      * intros Hin. apply in_map_iff in Hin as [k [Hk Hin]].
        exists k. now split.
      * intros [k [Hin ->]]. apply in_map_iff. now exists k.
      * apply length_map.
      * destruct o as [|kv o]; [now elim (Hfields [] eq_refl) | reflexivity].
    + repeat split.
Qed.

End UpdateMask.

(** ** The properties at the sample inputs *)

Example lastIndexOf_samples :
  Js.lastIndexOf "projects/p/locations/l/functions/fooBar" "/" = 32 /\
  Js.lastIndexOf "fooBar" "/" = -1 /\
  Js.lastIndexOf "fooBar/" "/" = 6 /\
  Js.lastIndexOf "fooBar" "" = 6.
Proof. repeat split; reflexivity. Qed.

Example substring_samples :
  Js.substring "fooBar" 0 = "fooBar" /\
  Js.substring "fooBar" 3 = "Bar" /\
  Js.substring "fooBar" (-2) = "fooBar" /\
  Js.substring "fooBar" 9 = "".
Proof. repeat split; reflexivity. Qed.

Example makePath_samples :
  makePath "proj" "us-central1" None =
    "/v1/projects/proj/locations/us-central1/functions" /\
  makePath "proj" "us-central1" (Some "foo") =
    "/v1/projects/proj/locations/us-central1/functions/foo".
Proof. split; reflexivity. Qed.

Example patch_masks_samples :
  patch_masks Sample.https_options =
    ["sourceUploadUrl"; "name"; "labels"; "runtime"; "availableMemoryMb";
     "timeout"; "httpsTrigger"] /\
  patch_masks Sample.event_options =
    ["sourceUploadUrl"; "name"; "labels"; "eventTrigger.eventType";
     "eventTrigger.resource"] /\
  patch_masks Sample.empty_event_options =
    ["sourceUploadUrl"; "name"; "labels"] /\
  patch_masks Sample.empty_runtime_options =
    ["sourceUploadUrl"; "name"; "labels"; "httpsTrigger"].
Proof. repeat split; reflexivity. Qed.

Example updateMask_sample :
  Request.qs (patchFunction_request Sample.origin Sample.event_options
                Sample.func Sample.endpoint) =
  [("updateMask",
    "sourceUploadUrl,name,labels,eventTrigger.eventType,eventTrigger.resource")].
Proof. reflexivity. Qed.

(** The scenario of a create that meets a 429: where the request goes,
    what is logged, and what the caller is left with. *)
Example create_scenario :
  let run := createFunction (Sample.failing Sample.quota_error) Sample.origin
               Sample.plain Sample.target Sample.descriptor in
  List.map (fun r => (Request.method r, Request.path r))
    (requests (events run)) =
    [(POST, "/v1/projects/proj/locations/us-central1/functions/foo")] /\
  lines (events run) =
    [(Warning, "functions: failed to create function projects/proj/locations/us-central1/functions/foo");
     (Debug, "HTTP Error: 429, Quota exceeded");
     (Info, ERR_DEPLOYMENT_QUOTA_EXCEEDED_MESSAGE)] /\
  outcome run =
    Rejected (ReasonPromise (Rejected (ReasonError
      (FirebaseError_new
         "Failed to create function projects/proj/locations/us-central1/functions/foo"
         (Some Sample.quota_error)
         (Some (mkErrorContext None
            (Some "projects/proj/locations/us-central1/functions/foo"))))))).
Proof. repeat split; reflexivity. Qed.

Example list_scenario :
  outcome (listFunctions (Sample.answering Sample.answer) Sample.origin
             "proj" "us-central1") =
  Fulfilled
    [Listed.mk "projects/proj/locations/us-central1/functions/fooBar"
       (Some "fooBar") []].
Proof. reflexivity. Qed.

(** Outside the EventTrigger interface, at an object with no key: the
    mask has a path of neither kind. *)
Lemma empty_event_trigger_leaves_neither_kind :
  ~ one_trigger_kind (patch_masks Sample.empty_event_options).
Proof.
  unfold one_trigger_kind. vm_compute. discriminate.
Qed.

(** C3, as stated, at a runtime that is supplied and empty: the field is
    present and the mask has no path for it. *)
Lemma empty_runtime_is_present_without_path :
  ~ mask_follows_presence Sample.empty_runtime_options.
Proof.
  intros [[_ Hpresent] _].
  assert (Hin : In "runtime" (patch_masks Sample.empty_runtime_options))
    by (apply Hpresent; discriminate).
  simpl in Hin. intuition discriminate.
Qed.

(** The mask of a patch whose event trigger is an EventTrigger. *)
Lemma patch_mask_one_trigger_kind_witness :
  one_trigger_kind (patch_masks Sample.typed_event_options) /\
  length (trigger_paths (patch_masks Sample.typed_event_options)) = 4%nat.
Proof.
  assert (Hfields : forall o,
            TriggerOption.eventTrigger
              (PatchOptions.trigger Sample.typed_event_options) = Some o ->
            o <> [])
    by (intros o [= <-]; discriminate).
  split.
  - apply (proj1 (patch_mask_one_trigger_kind Sample.typed_event_options
                    Hfields)).
  - apply (proj1 (proj2 (proj2 (patch_mask_one_trigger_kind
                    Sample.typed_event_options Hfields)))).
Defined.

(** The list call at a reply with one function. *)
Lemma listFunctions_attaches_tail_segment_witness :
  exists fs,
    outcome (listFunctions (Sample.answering Sample.answer) Sample.origin
               "proj" "us-central1") = Fulfilled fs /\
    Forall2
      (fun f g =>
         Listed.name g = Listed.name f /\
         Listed.others g = Listed.others f /\
         (forall suf, tail_segment (Listed.name f) suf ->
                      Listed.functionName g = Some suf) /\
         (Js.occurs "/"%char (Listed.name f) = false ->
          Listed.functionName g = Some (Listed.name f)))
      Sample.listed fs.
Proof.
  apply (listFunctions_attaches_tail_segment
           (Sample.answering Sample.answer) Sample.origin "proj" "us-central1"
           Sample.answer Sample.listed); reflexivity.
Defined.

(** The list call at a reply whose body has no functions property. *)
Lemma listFunctions_without_functions_witness :
  outcome (listFunctions (Sample.answering Sample.bare_answer) Sample.origin
             "proj" "us-central1") = Fulfilled [].
Proof.
  apply (listFunctions_without_functions
           (Sample.answering Sample.bare_answer) Sample.origin "proj"
           "us-central1" Sample.bare_answer); reflexivity.
Defined.

(** A create that meets a 429 and a delete that meets a 500. *)
Lemma failure_lines_quota_iff_429_witness :
  lines (events (createFunction (Sample.failing Sample.quota_error)
                   Sample.origin Sample.plain Sample.target
                   Sample.descriptor)) =
    quota_lines
      (failure_warning Sample.plain "create"
         (CloudFunction.name Sample.descriptor))
      Sample.quota_error /\
  lines (events (deleteFunction (Sample.failing Sample.server_error)
                   Sample.origin Sample.plain Sample.delete_options)) =
    plain_lines
      (failure_warning Sample.plain "delete"
         (DeleteOptions.functionName Sample.delete_options))
      Sample.server_error.
Proof.
  split.
  - apply (proj1 (failure_lines_quota_iff_429
                    (Sample.failing Sample.quota_error) Sample.origin
                    Sample.plain Sample.target Sample.descriptor
                    Sample.https_options Sample.func Sample.endpoint
                    Sample.delete_options Sample.quota_error) eq_refl).
    reflexivity.
  - apply (proj2 (proj2 (failure_lines_quota_iff_429
                    (Sample.failing Sample.server_error) Sample.origin
                    Sample.plain Sample.target Sample.descriptor
                    Sample.https_options Sample.func Sample.endpoint
                    Sample.delete_options Sample.server_error)) eq_refl).
    discriminate.
Defined.

(** Both calls at a transport that fails. *)
Lemma upload_url_and_operation_rethrow_witness :
  outcome (generateUploadUrl (Sample.failing Sample.server_error)
             Sample.origin "proj" "us-central1") =
    Rejected (ReasonError Sample.server_error) /\
  outcome (getOperation (Sample.failing Sample.quota_error) Sample.origin
             (OperationTarget.mk "operations/cHJvai9mb28")) =
    Rejected (ReasonError Sample.quota_error).
Proof.
  split.
  - apply (proj1 (upload_url_and_operation_rethrow
                    (Sample.failing Sample.server_error) Sample.origin
                    "proj" "us-central1"
                    (OperationTarget.mk "operations/cHJvai9mb28")
                    Sample.server_error) eq_refl).
  - apply (proj2 (upload_url_and_operation_rethrow
                    (Sample.failing Sample.quota_error) Sample.origin
                    "proj" "us-central1"
                    (OperationTarget.mk "operations/cHJvai9mb28")
                    Sample.quota_error) eq_refl).
Defined.

(** A create that meets a 429: what the caller catches. *)
Lemma createFunction_rejects_with_a_promise_witness :
  outcome (createFunction (Sample.failing Sample.quota_error) Sample.origin
             Sample.plain Sample.target Sample.descriptor) =
  Rejected (ReasonPromise (Rejected (ReasonError
    (wrapped_error "create" (CloudFunction.name Sample.descriptor)
       Sample.quota_error)))).
Proof.
  apply (proj1 (createFunction_rejects_with_a_promise
                  (Sample.failing Sample.quota_error) Sample.origin
                  Sample.plain Sample.target Sample.descriptor
                  Sample.https_options Sample.func Sample.endpoint
                  Sample.delete_options Sample.quota_error) eq_refl).
Defined.

(** A patch of the sample target where [func] holds the resource name of
    another function, and a delete. *)
Lemma patch_record_ignores_the_target_witness :
  outcome (patchFunction (Sample.answering Sample.answer) Sample.origin
             Sample.plain Sample.target Sample.descriptor
             Sample.https_options Sample.other_func Sample.endpoint) =
    Fulfilled (OperationRecord.mk
                 "projects/other/locations/europe-west1/functions/bar" false
                 (Some "operations/cHJvai9mb28") "update") /\
  outcome (deleteFunction (Sample.answering Sample.answer) Sample.origin
             Sample.plain Sample.delete_options) =
    Fulfilled (OperationRecord.mk
                 "projects/proj/locations/us-central1/functions/foo" false
                 (Some "operations/cHJvai9mb28") "delete").
Proof.
  split.
  - apply (proj1 (proj1 (patch_record_ignores_the_target
                    (Sample.answering Sample.answer) Sample.origin
                    Sample.plain Sample.target Sample.other_target
                    Sample.descriptor Sample.descriptor
                    Sample.https_options Sample.other_func Sample.endpoint
                    Sample.delete_options Sample.answer) eq_refl)).
  - apply (proj2 (patch_record_ignores_the_target
                    (Sample.answering Sample.answer) Sample.origin
                    Sample.plain Sample.target Sample.other_target
                    Sample.descriptor Sample.descriptor
                    Sample.https_options Sample.other_func Sample.endpoint
                    Sample.delete_options Sample.answer) eq_refl).
Defined.

(** * Further properties *)

(** ** Strings with a separator *)

Lemma occurs_cons (c d : ascii) (s : string) :
  Js.occurs c (String d s) = Ascii.eqb c d || Js.occurs c s.
Proof. reflexivity. Qed.

Lemma occurs_app (c : ascii) (a b : string) :
  Js.occurs c (a ++ b) = Js.occurs c a || Js.occurs c b.
Proof.
  induction a as [|d a IH]; [reflexivity|].
  change (String d a ++ b) with (String d (a ++ b)).
  now rewrite !occurs_cons, IH, orb_assoc.
Qed.

Lemma append_cancel (a x y : string) : a ++ x = a ++ y -> x = y.
Proof.
  induction a as [|d a IH]; intros H; [exact H|].
  change (String d (a ++ x) = String d (a ++ y)) in H.
  injection H as H. now apply IH.
Qed.

(** A string is cut at its first separator in one way only. *)
Lemma first_separator_unique (c : ascii) (a a' r r' : string) :
  Js.occurs c a = false -> Js.occurs c a' = false ->
  a ++ String c r = a' ++ String c r' -> a = a' /\ r = r'.
Proof.
  revert a'. induction a as [|d a IH]; intros [|d' a'] Ha Ha' H.
  - injection H as H. now split.
  - change (String c r = String d' (a' ++ String c r')) in H.
    injection H as Hc _. rewrite occurs_cons, <- Hc, Ascii.eqb_refl in Ha'.
    discriminate.
  - change (String d (a ++ String c r) = String c r') in H.
    injection H as Hc _. rewrite occurs_cons, Hc, Ascii.eqb_refl in Ha.
    discriminate.
  - change (String d (a ++ String c r) = String d' (a' ++ String c r')) in H.
    injection H as Hd H.
    rewrite occurs_cons in Ha, Ha'.
    apply orb_false_iff in Ha as [_ Ha]. apply orb_false_iff in Ha' as [_ Ha'].
    destruct (IH a' Ha Ha' H) as [-> ->]. now subst.
Qed.

(** Every string either has no ["/"] or is cut at its last one. *)
Lemma last_slash_split (s : string) :
  Js.occurs "/"%char s = false \/
  exists pre suf, s = pre ++ "/" ++ suf /\ Js.occurs "/"%char suf = false.
Proof.
  induction s as [|c s [Hfree|[pre [suf [-> Hsuf]]]]].
  - now left.
  - destruct (Ascii.eqb "/"%char c) eqn:Hc.
    + right. apply Ascii.eqb_eq in Hc as <-. now exists "", s.
    + left. now rewrite occurs_cons, Hc.
  - right. now exists (String c pre), suf.
Qed.

(** The normal form of a path of the REST interface. *)
Lemma makePath_normal (p l : string) (f : option string) :
  makePath p l f =
  "/v1/projects/" ++
  (p ++ String "/"
     ("locations/" ++
      (l ++ String "/"
         ("functions" ++ match f with Some n => "/" ++ n | None => "" end)))).
Proof.
  destruct f as [n|].
  - rewrite makePath_item. unfold collection_path. now rewrite !append_assoc.
  - rewrite makePath_collection. reflexivity.
Qed.

(** X1: two targets whose project ids and location names have no "/" get
    the same path only when they are the same target: the same project,
    the same location and the same function name, or no function name on
    both sides. *)
Theorem makePath_injective (p l p' l' : string) (f f' : option string) :
  Js.occurs "/"%char p = false -> Js.occurs "/"%char l = false ->
  Js.occurs "/"%char p' = false -> Js.occurs "/"%char l' = false ->
  makePath p l f = makePath p' l' f' ->
  p = p' /\ l = l' /\ f = f'.
Proof.
  intros Hp Hl Hp' Hl' H. rewrite !makePath_normal in H.
  apply append_cancel in H.
  apply first_separator_unique in H as [-> H]; [|assumption..].
  apply append_cancel in H.
  apply first_separator_unique in H as [-> H]; [|assumption..].
  apply append_cancel in H.
  repeat split. destruct f as [n|], f' as [n'|]; try discriminate H.
  - now injection H as ->.
  - reflexivity.
Qed.

(** The path of the sample target read back. *)
Lemma makePath_injective_witness :
  projectId Sample.target = "proj" /\
  locationName Sample.target = "us-central1" /\
  Some (functionName Sample.target) = Some "foo".
Proof.
  apply (makePath_injective
           (projectId Sample.target) (locationName Sample.target)
           "proj" "us-central1"
           (Some (functionName Sample.target)) (Some "foo")); reflexivity.
Defined.

(** X2: the paths that deleteFunction and listFunctions put together by
    hand are the paths of makePath: the item path of the project, region
    and function name for a delete (which is "/v1/" before the resource
    name that the delete answers as [func]), the collection path of the
    project and region for a list. *)
Theorem endpoints_agree_with_makePath (origin : string)
    (o : DeleteOptions.t) (p r : string) :
  Request.path (deleteFunction_request origin o) =
    makePath (DeleteOptions.projectId o) (DeleteOptions.region o)
      (Some (DeleteOptions.functionName o)) /\
  "/v1/" ++ deleteFunction_func o =
    makePath (DeleteOptions.projectId o) (DeleteOptions.region o)
      (Some (DeleteOptions.functionName o)) /\
  Request.path (listFunctions_request origin p r) = makePath p r None.
Proof.
  repeat split.
  - rewrite makePath_normal. unfold deleteFunction_request, deleteFunction_func.
    cbn [Request.path]. unfold API_VERSION. now rewrite !append_assoc.
  - rewrite makePath_normal. unfold deleteFunction_func.
    now rewrite !append_assoc.
  - rewrite makePath_normal. reflexivity.
Qed.

Lemma attach_functionName_suffix (f : Listed.t) :
  exists pre fn,
    Listed.functionName (attach_functionName f) = Some fn /\
    Listed.name (attach_functionName f) = pre ++ fn /\
    Js.occurs "/"%char fn = false.
Proof.
  destruct (last_slash_split (Listed.name f))
    as [Hfree|[pre [suf [Hname Hsuf]]]].
  - exists "", (Listed.name f). unfold attach_functionName.
    cbn [Listed.functionName Listed.name].
    rewrite substring_without_slash by assumption. now repeat split.
  - exists (pre ++ "/"), suf. unfold attach_functionName.
    cbn [Listed.functionName Listed.name]. rewrite Hname.
    rewrite substring_after_last_slash by assumption.
    repeat split; [now rewrite append_assoc | assumption].
Qed.

(** X3: whatever names a successful list reply carries, every function of
    the result has a functionName, its name ends with that functionName,
    and the functionName has no "/" in it. *)
Theorem listed_functionName_is_a_slash_free_suffix
    (api_request : Request.t -> Reply) (origin projectId region : string)
    (resp : Response) :
  api_request (listFunctions_request origin projectId region)
    = Responded resp ->
  exists fs,
    outcome (listFunctions api_request origin projectId region)
      = Fulfilled fs /\
    Forall
      (fun g =>
         exists pre fn,
           Listed.functionName g = Some fn /\
           Listed.name g = pre ++ fn /\
           Js.occurs "/"%char fn = false)
      fs.
Proof.
  intros Hok.
  exists (List.map attach_functionName
            match Body.functions (body resp) with
            | Some fs => fs
            | None => []
            end).
  split.
  - unfold listFunctions.
    now rewrite bind_outcome, request_outcome, Hok.
  - apply Forall_map, Forall_forall. intros f _.
    apply attach_functionName_suffix.
Qed.

(** The list call at a reply with one function. *)
Lemma listed_functionName_is_a_slash_free_suffix_witness :
  exists fs,
    outcome (listFunctions (Sample.answering Sample.answer) Sample.origin
               "proj" "us-central1") = Fulfilled fs /\
    Forall
      (fun g =>
         exists pre fn,
           Listed.functionName g = Some fn /\
           Listed.name g = pre ++ fn /\
           Js.occurs "/"%char fn = false)
      fs.
Proof.
  apply (listed_functionName_is_a_slash_free_suffix
           (Sample.answering Sample.answer) Sample.origin "proj"
           "us-central1" Sample.answer); reflexivity.
Defined.

(** X4: the resource name that deleteFunction builds for a function name
    with no "/" is read back by the list call: as the name of a listed
    function it gets that function name as its functionName, whatever
    functionName the listed function had before. *)
Theorem list_reads_back_deleted_name (o : DeleteOptions.t)
    (before : option string) (others : Js.object) :
  Js.occurs "/"%char (DeleteOptions.functionName o) = false ->
  Listed.functionName
    (attach_functionName (Listed.mk (deleteFunction_func o) before others))
  = Some (DeleteOptions.functionName o).
Proof.
  intros Hfree. unfold attach_functionName.
  cbn [Listed.functionName Listed.name]. f_equal.
  replace (deleteFunction_func o)
    with (("projects/" ++ DeleteOptions.projectId o ++ "/locations/" ++
           DeleteOptions.region o ++ "/functions") ++ "/" ++
          DeleteOptions.functionName o).
  - now apply substring_after_last_slash.
  - unfold deleteFunction_func. now rewrite !append_assoc.
Qed.

(** The resource name of the sample delete, listed. *)
Lemma list_reads_back_deleted_name_witness :
  Listed.functionName
    (attach_functionName
       (Listed.mk (deleteFunction_func Sample.delete_options) None []))
  = Some "foo".
Proof.
  apply (list_reads_back_deleted_name Sample.delete_options None []).
  reflexivity.
Defined.

(** ** Requests, lines and outcomes of the operations *)

Section Traces.

Variable api_request : Request.t -> Reply.
Variable functionsOrigin : string.
Variable clc_bold_yellow : string -> string.

(** X5: when the list request fails, listFunctions logs two debug lines,
    the project and the underlying message, and is rejected with the
    underlying message alone, a string: the error object, its status code
    included, does not reach the caller, and no warning or quota hint is
    logged whatever the status code. *)
Theorem listFunctions_failure_is_a_bare_message (projectId region : string)
    (err : FirebaseError) :
  api_request (listFunctions_request functionsOrigin projectId region)
    = Failed err ->
  outcome (listFunctions api_request functionsOrigin projectId region)
    = Rejected (ReasonMessage (message err)) /\
  lines (events (listFunctions api_request functionsOrigin projectId region))
    = [(Debug, "[functions] failed to list functions for " ++ projectId);
       (Debug, "[functions] " ++ message err)].
Proof.
  intros Hfail. unfold listFunctions.
  rewrite bind_outcome, bind_events, request_events, request_outcome, Hfail.
  split; reflexivity.
Qed.

Ltac open_operation :=
  rewrite ?bind_events, ?bind_outcome, ?request_events, ?request_outcome.

(** X6: generateUploadUrl, createFunction, listFunctions and getOperation
    each issue their request first and nothing but log lines after it:
    whatever the transport answers, no second request follows. *)
Theorem one_request_then_only_lines (projectId locationName region : string)
    (target : Target) (cloudFunction : CloudFunction.t)
    (operation : OperationTarget.t) :
  (exists rest,
     events (generateUploadUrl api_request functionsOrigin projectId
               locationName) =
       Requested (generateUploadUrl_request functionsOrigin projectId
                    locationName) :: rest /\
     requests rest = []) /\
  (exists rest,
     events (createFunction api_request functionsOrigin clc_bold_yellow
               target cloudFunction) =
       Requested (createFunction_request functionsOrigin target
                    cloudFunction) :: rest /\
     requests rest = []) /\
  (exists rest,
     events (listFunctions api_request functionsOrigin projectId region) =
       Requested (listFunctions_request functionsOrigin projectId region)
       :: rest /\
     requests rest = []) /\
  (exists rest,
     events (getOperation api_request functionsOrigin operation) =
       Requested (getOperation_request functionsOrigin operation) :: rest /\
     requests rest = []).
Proof.
  split; [|split; [|split]].
  - unfold generateUploadUrl. open_operation.
    destruct (api_request _); eexists; split; reflexivity.
  - unfold createFunction. open_operation.
    destruct (api_request _) as [resp|error].
    + eexists; split; reflexivity.
    + eexists; split; [reflexivity|].
      rewrite bind_events, requests_app, makeFirebaseError_requests.
      reflexivity.
  - unfold listFunctions. open_operation.
    destruct (api_request _); eexists; split; reflexivity.
  - unfold getOperation. open_operation.
    destruct (api_request _); eexists; split; reflexivity.
Qed.

(** X9: on an answered request createFunction and getOperation hand the
    body of the response to the caller as it is, and generateUploadUrl
    hands on the uploadUrl property of the body: when the body has no such
    property the promise is still fulfilled, with an undefined value. *)
Theorem answered_requests_pass_the_body (projectId locationName : string)
    (target : Target) (cloudFunction : CloudFunction.t)
    (operation : OperationTarget.t) (resp : Response) :
  (api_request (createFunction_request functionsOrigin target cloudFunction)
     = Responded resp ->
   outcome (createFunction api_request functionsOrigin clc_bold_yellow
              target cloudFunction) = Fulfilled (body resp)) /\
  (api_request (getOperation_request functionsOrigin operation)
     = Responded resp ->
   outcome (getOperation api_request functionsOrigin operation)
     = Fulfilled (body resp)) /\
  (api_request (generateUploadUrl_request functionsOrigin projectId
                  locationName) = Responded resp ->
   outcome (generateUploadUrl api_request functionsOrigin projectId
              locationName) = Fulfilled (Body.uploadUrl (body resp)) /\
   (Body.uploadUrl (body resp) = None ->
    outcome (generateUploadUrl api_request functionsOrigin projectId
               locationName) = Fulfilled None)).
Proof.
  split; [|split]; intros Hok.
  - unfold createFunction. open_operation. now rewrite Hok.
  - unfold getOperation. open_operation. now rewrite Hok.
  - unfold generateUploadUrl. open_operation. rewrite Hok.
    split; [reflexivity | now intros ->].
Qed.

(** X10: the typed error that makeFirebaseError builds carries no response
    status of its own, only its cause does: handed to makeFirebaseError
    again it gets the warning and its own message at info level, never the
    quota hint, also when its cause was a 429. *)
Theorem wrapped_error_never_brings_the_quota_hint
    (name name' : string) (op op' : OperationType)
    (error wrapped : FirebaseError) :
  outcome (makeFirebaseError clc_bold_yellow name op error)
    = Rejected (ReasonError wrapped) ->
  get_statusCode wrapped = None /\
  original wrapped = Some error /\
  lines (events (makeFirebaseError clc_bold_yellow name' op' wrapped)) =
    [(Warning, failure_warning clc_bold_yellow (OperationType_value op') name');
     (Info, "Failed to " ++ OperationType_value op ++ " function " ++ name)].
Proof.
  rewrite makeFirebaseError_outcome. intros [= <-].
  split; [reflexivity|]. split; [reflexivity|].
  rewrite makeFirebaseError_lines. reflexivity.
Qed.

End Traces.

(** A list that meets a 429. *)
Lemma listFunctions_failure_is_a_bare_message_witness :
  outcome (listFunctions (Sample.failing Sample.quota_error) Sample.origin
             "proj" "us-central1")
    = Rejected (ReasonMessage "HTTP Error: 429, Quota exceeded") /\
  lines (events (listFunctions (Sample.failing Sample.quota_error)
                   Sample.origin "proj" "us-central1"))
    = [(Debug, "[functions] failed to list functions for proj");
       (Debug, "[functions] HTTP Error: 429, Quota exceeded")].
Proof.
  apply (listFunctions_failure_is_a_bare_message
           (Sample.failing Sample.quota_error) Sample.origin "proj"
           "us-central1" Sample.quota_error).
  reflexivity.
Defined.

(** An upload-url request answered by a body with no uploadUrl. *)
Lemma answered_requests_pass_the_body_witness :
  outcome (generateUploadUrl (Sample.answering Sample.bare_answer)
             Sample.origin "proj" "us-central1") = Fulfilled None /\
  outcome (createFunction (Sample.answering Sample.answer) Sample.origin
             Sample.plain Sample.target Sample.descriptor)
    = Fulfilled (body Sample.answer).
Proof.
  split.
  - apply (proj2 (proj2 (proj2 (answered_requests_pass_the_body
             (Sample.answering Sample.bare_answer) Sample.origin Sample.plain
             "proj" "us-central1" Sample.target Sample.descriptor
             (OperationTarget.mk "operations/cHJvai9mb28")
             Sample.bare_answer)) eq_refl) eq_refl).
  - apply (proj1 (answered_requests_pass_the_body
             (Sample.answering Sample.answer) Sample.origin Sample.plain
             "proj" "us-central1" Sample.target Sample.descriptor
             (OperationTarget.mk "operations/cHJvai9mb28")
             Sample.answer) eq_refl).
Defined.

(** The error of a create that met a 429, wrapped again by an update. *)
Lemma wrapped_error_never_brings_the_quota_hint_witness :
  get_statusCode (wrapped_error "create" "foo" Sample.quota_error) = None /\
  original (wrapped_error "create" "foo" Sample.quota_error)
    = Some Sample.quota_error /\
  lines (events (makeFirebaseError Sample.plain "foo" Update
                   (wrapped_error "create" "foo" Sample.quota_error))) =
    [(Warning, "functions: failed to update function foo");
     (Info, "Failed to create function foo")].
Proof.
  apply (wrapped_error_never_brings_the_quota_hint Sample.plain
           "foo" "foo" Create Update Sample.quota_error
           (wrapped_error "create" "foo" Sample.quota_error)).
  reflexivity.
Defined.

(** ** The update mask and the payload *)

Section MaskAndPayload.

Variable options : PatchOptions.t.
Variable func : string.

Lemma NoDup_prefixed (pre : string) (ks : list string) :
  NoDup (List.map (fun k => pre ++ k) ks) <-> NoDup ks.
Proof.
  split; [apply NoDup_map_inv|].
  induction 1 as [|k ks Hk Hks IH]; cbn [List.map]; constructor.
  - intros Hin. apply in_map_iff in Hin as [k' [Heq Hin]].
    apply append_cancel in Heq. now subst.
  - exact IH.
Qed.

Lemma NoDup_before :
  NoDup (["sourceUploadUrl"; "name"; "labels"] ++ optional_masks options).
Proof.
  unfold optional_masks.
  destruct (Js.truthy_string (PatchOptions.runtime options)),
    (Js.truthy_number (PatchOptions.availableMemoryMb options)),
    (Js.truthy_string (PatchOptions.timeout options));
    cbn [app]; repeat constructor; simpl; intuition discriminate.
Qed.

Lemma before_is_not_trigger (p : string) :
  In p (["sourceUploadUrl"; "name"; "labels"] ++ optional_masks options) ->
  ~ In p (trigger_masks options).
Proof.
  intros Hin. destruct (no_trigger_path_before options) as [Hnone _].
  assert (Hp : is_event_path p || is_https_path p = false).
  { destruct (is_event_path p || is_https_path p) eqn:E; [|reflexivity].
    assert (Hf : In p (trigger_paths
                         (["sourceUploadUrl"; "name"; "labels"] ++
                          optional_masks options)))
      by (apply filter_In; now split).
    rewrite Hnone in Hf. destruct Hf. }
  apply orb_false_iff in Hp as [Hev Hht].
  now apply not_in_trigger_masks.
Qed.

(** X12: the update mask names no path twice exactly when the keys of the
    supplied event trigger, if there is one, are all different. *)
Theorem patch_masks_NoDup :
  NoDup (patch_masks options) <->
  (forall o,
     TriggerOption.eventTrigger (PatchOptions.trigger options) = Some o ->
     NoDup (Js.keys o)).
Proof.
  rewrite patch_masks_shape, app_assoc. split.
  - intros H o Ho. apply NoDup_app_remove_l in H.
    unfold trigger_masks in H. rewrite Ho in H.
    now apply NoDup_prefixed in H.
  - intros H. apply NoDup_app.
    + apply NoDup_before.
    + unfold trigger_masks.
      destruct (TriggerOption.eventTrigger (PatchOptions.trigger options))
        as [o|].
      * apply NoDup_prefixed. now apply H.
      * repeat constructor. intros [].
    + apply before_is_not_trigger.
Qed.

(** X13: the mask does not look at the https trigger of the options.  It
    names httpsTrigger exactly when no event trigger is supplied, while
    the payload carries both triggers as they are supplied: with both
    supplied the payload has an https trigger that the mask leaves out,
    and with neither the mask names an https trigger that the payload
    does not have. *)
Theorem https_path_follows_the_event_trigger :
  let masks := patch_masks options in
  let data := patch_data options func in
  (In "httpsTrigger" masks <->
   TriggerOption.eventTrigger (PatchOptions.trigger options) = None) /\
  PatchData.eventTrigger data =
    TriggerOption.eventTrigger (PatchOptions.trigger options) /\
  PatchData.httpsTrigger data =
    TriggerOption.httpsTrigger (PatchOptions.trigger options) /\
  (forall https,
     patch_masks
       (PatchOptions.mk
          (PatchOptions.sourceUploadUrl options)
          (PatchOptions.labels options)
          (TriggerOption.mk
             (TriggerOption.eventTrigger (PatchOptions.trigger options))
             https)
          (PatchOptions.runtime options)
          (PatchOptions.availableMemoryMb options)
          (PatchOptions.timeout options)
          (PatchOptions.functionName options))
     = masks).
Proof.
  intros masks data. subst masks data.
  split; [|repeat split].
  rewrite patch_masks_shape, app_assoc, in_app_iff. split.
  - intros [Hin|Hin].
    + exfalso. destruct (no_trigger_path_before options) as [Hnone _].
      assert (Hf : In "httpsTrigger"
                     (trigger_paths
                        (["sourceUploadUrl"; "name"; "labels"] ++
                         optional_masks options)))
        by (apply filter_In; now split).
      rewrite Hnone in Hf. destruct Hf.
    + unfold trigger_masks in Hin.
      destruct (TriggerOption.eventTrigger (PatchOptions.trigger options))
        as [o|]; [|reflexivity].
      apply in_map_iff in Hin as [k [Hk _]]. discriminate Hk.
  - intros Hnone. right. unfold trigger_masks. rewrite Hnone. now left.
Qed.

End MaskAndPayload.

(** ** The update mask as a query parameter *)

Lemma join_cons2 (sep x y : string) (rest : list string) :
  Js.join sep (x :: y :: rest) = x ++ sep ++ Js.join sep (y :: rest).
Proof. reflexivity. Qed.

Lemma join_single (sep x : string) : Js.join sep [x] = x.
Proof. reflexivity. Qed.

(** A joined list is read back in one way only when no element holds the
    separator. *)
Lemma join_injective (c : ascii) (xs ys : list string) :
  xs <> [] -> ys <> [] ->
  Forall (fun x => Js.occurs c x = false) xs ->
  Forall (fun y => Js.occurs c y = false) ys ->
  Js.join (String c "") xs = Js.join (String c "") ys -> xs = ys.
Proof.
  revert ys. induction xs as [|x xs IH]; intros ys Hxs Hys Fx Fy H;
    [now elim Hxs|].
  destruct ys as [|y ys]; [now elim Hys|].
  apply Forall_cons_iff in Fx as [Hx Fx].
  apply Forall_cons_iff in Fy as [Hy Fy].
  destruct xs as [|x2 xs], ys as [|y2 ys].
  - simpl in H. now subst.
  - rewrite join_cons2, join_single in H. exfalso.
    rewrite H, occurs_app in Hx. apply orb_false_iff in Hx as [_ Hx].
    change (String c "" ++ Js.join (String c "") (y2 :: ys))
      with (String c (Js.join (String c "") (y2 :: ys))) in Hx.
    rewrite occurs_cons, Ascii.eqb_refl in Hx. discriminate.
  - rewrite join_cons2, join_single in H. exfalso.
    rewrite <- H, occurs_app in Hy. apply orb_false_iff in Hy as [_ Hy].
    change (String c "" ++ Js.join (String c "") (x2 :: xs))
      with (String c (Js.join (String c "") (x2 :: xs))) in Hy.
    rewrite occurs_cons, Ascii.eqb_refl in Hy. discriminate.
  - rewrite !join_cons2 in H.
    change (String c "" ++ Js.join (String c "") (x2 :: xs))
      with (String c (Js.join (String c "") (x2 :: xs))) in H.
    change (String c "" ++ Js.join (String c "") (y2 :: ys))
      with (String c (Js.join (String c "") (y2 :: ys))) in H.
    apply first_separator_unique in H as [-> H]; [|assumption..].
    f_equal. apply IH; try assumption; discriminate.
Qed.

(** The paths of a mask hold no comma when the keys of the event trigger
    hold none. *)
Lemma patch_masks_comma_free (options : PatchOptions.t) :
  (forall o,
     TriggerOption.eventTrigger (PatchOptions.trigger options) = Some o ->
     Forall (fun k => Js.occurs ","%char k = false) (Js.keys o)) ->
  Forall (fun p => Js.occurs ","%char p = false) (patch_masks options).
Proof.
  intros Hkeys. rewrite patch_masks_shape, app_assoc.
  apply Forall_app. split.
  - unfold optional_masks.
    destruct (Js.truthy_string (PatchOptions.runtime options)),
      (Js.truthy_number (PatchOptions.availableMemoryMb options)),
      (Js.truthy_string (PatchOptions.timeout options));
      cbn [app]; repeat constructor.
  - unfold trigger_masks.
    destruct (TriggerOption.eventTrigger (PatchOptions.trigger options))
      as [o|].
    + specialize (Hkeys o eq_refl). apply Forall_map.
      eapply Forall_impl; [|exact Hkeys].
      intros k Hk. now rewrite occurs_app, Hk.
    + repeat constructor.
Qed.

Lemma patch_masks_not_nil (options : PatchOptions.t) :
  patch_masks options <> [].
Proof. rewrite patch_masks_shape. discriminate. Qed.

(** X14: the comma-joined updateMask parameter of a patch request loses
    nothing: two patches whose event-trigger keys hold no comma and whose
    requests carry the same query have the same update mask, path by
    path. *)
Theorem updateMask_determines_the_mask (origin origin' : string)
    (options options' : PatchOptions.t)
    (func func' endpoint endpoint' : string) :
  (forall o,
     TriggerOption.eventTrigger (PatchOptions.trigger options) = Some o ->
     Forall (fun k => Js.occurs ","%char k = false) (Js.keys o)) ->
  (forall o,
     TriggerOption.eventTrigger (PatchOptions.trigger options') = Some o ->
     Forall (fun k => Js.occurs ","%char k = false) (Js.keys o)) ->
  Request.qs (patchFunction_request origin options func endpoint) =
  Request.qs (patchFunction_request origin' options' func' endpoint') ->
  patch_masks options = patch_masks options'.
Proof.
  intros Hk Hk' H. unfold patchFunction_request in H.
  cbn [Request.qs] in H. injection H as H.
  apply (join_injective ","%char);
    auto using patch_masks_not_nil, patch_masks_comma_free.
Qed.

(** Two patches of the sample event trigger, to different endpoints. *)
Lemma updateMask_determines_the_mask_witness :
  patch_masks Sample.event_options = patch_masks Sample.event_options.
Proof.
  apply (updateMask_determines_the_mask Sample.origin Sample.origin
           Sample.event_options Sample.event_options
           Sample.func Sample.func Sample.endpoint "/v1/other").
  - intros o [= <-]. repeat constructor.
  - intros o [= <-]. repeat constructor.
  - reflexivity.
Defined.

(** ** Where the preconditions matter *)

(** With a "/" in the ids two different targets meet on one path. *)
Example makePath_meets_with_slashes :
  makePath "a/locations/b" "c" None = makePath "a" "b/locations/c" None.
Proof. reflexivity. Qed.

(** With a comma in a key two different masks meet on one parameter. *)
Example updateMask_meets_with_commas :
  let one :=
    PatchOptions.mk None []
      (TriggerOption.mk
         (Some [("resource,eventTrigger.service", Js.VString "r")]) None)
      None None None "foo" in
  let two :=
    PatchOptions.mk None []
      (TriggerOption.mk
         (Some [("resource", Js.VString "r"); ("service", Js.VString "s")])
         None)
      None None None "foo" in
  Request.qs (patchFunction_request Sample.origin one Sample.func
                Sample.endpoint) =
  Request.qs (patchFunction_request Sample.origin two Sample.func
                Sample.endpoint) /\
  patch_masks one <> patch_masks two.
Proof. split; [reflexivity | discriminate]. Qed.

(** With a "/" in the function name the list call reads back its tail. *)
Example list_reads_back_the_tail :
  Listed.functionName
    (attach_functionName
       (Listed.mk
          (deleteFunction_func (DeleteOptions.mk "proj" "us-central1" "a/b"))
          None []))
  = Some "b".
Proof. reflexivity. Qed.
